(** * Handover pipeline of ensembl_prodinf: a shallow embedding

    The development follows [ensembl_prodinf/handover_tasks.py]:
    - Python values as they cross the JSON boundary of the job clients and of
      the task queue ([pyval]), dicts as ordered association lists;
    - the compiled patterns of [groups_for_uri] as regular expressions with a
      derivative matcher that decides what [re.match] decides;
    - the functions of the module in a state-and-exception monad over a heap
      of dict objects (the request dict is mutated in place by the code), the
      broker queue of the task substrate and a trace of external calls;
    - a worker that executes queued tasks one at a time. *)

From Stdlib Require Import List String Ascii Bool Arith ZArith Lia.
Import ListNotations.
Open Scope string_scope.

Set Implicit Arguments.

(** ** Python values *)

(** Values that can appear in a request dict, in a job-status payload or as a
    task argument: everything here crosses a JSON (de)serialisation. *)
#[warnings="-register-all"]
Inductive pyval : Type :=
| PNone
| PBool (b : bool)
| PInt (z : Z)
| PStr (s : string)
| PList (l : list pyval)
| PDict (d : list (string * pyval)).

(** A dict with string keys, in insertion order. *)
Definition dict := list (string * pyval).

Fixpoint dict_get (k : string) (d : dict) : option pyval :=
  match d with
  | [] => None
  | (k', v) :: d' => if String.eqb k k' then Some v else dict_get k d'
  end.

(** [d[k] = v]: an existing key keeps its position, a new key goes last. *)
Fixpoint dict_set (k : string) (v : pyval) (d : dict) : dict :=
  match d with
  | [] => [(k, v)]
  | (k', v') :: d' =>
      if String.eqb k k' then (k', v) :: d' else (k', v') :: dict_set k v d'
  end.

Definition dict_mem (k : string) (d : dict) : bool :=
  match dict_get k d with Some _ => true | None => false end.

(** [v == 'lit'] for a string literal: only a string compares equal to it. *)
Definition py_eq_str (v : pyval) (lit : string) : bool :=
  match v with
  | PStr s => String.eqb s lit
  | _ => false
  end.

(** The newline of the triple-quoted message templates. *)
Definition nl : string := String (ascii_of_nat 10) EmptyString.

(** ** Regular expressions and [re.match] *)

Module Re.

(** The fragment of Python's [re] syntax the module's patterns use. *)
Inductive regex : Type :=
| Void                              (* matches nothing *)
| Eps                               (* the empty string *)
| Dot                               (* [.]: any character but a newline *)
| Lit (c : ascii)                   (* a literal character *)
| Range (lo hi : ascii)             (* [[lo-hi]] *)
| Seq (r1 r2 : regex)
| Alt (r1 r2 : regex)
| Star (r : regex).

Definition is_newline (c : ascii) : bool := Ascii.eqb c (ascii_of_nat 10).

Definition in_range (lo hi c : ascii) : bool :=
  Nat.leb (nat_of_ascii lo) (nat_of_ascii c)
  && Nat.leb (nat_of_ascii c) (nat_of_ascii hi).

(** A literal word, character by character. *)
Fixpoint word (s : string) : regex :=
  match s with
  | EmptyString => Eps
  | String c s' => Seq (Lit c) (word s')
  end.

(** The words of a regular expression. *)
Inductive lang : regex -> list ascii -> Prop :=
| L_eps : lang Eps []
| L_dot c : is_newline c = false -> lang Dot [c]
| L_lit c : lang (Lit c) [c]
| L_range lo hi c : in_range lo hi c = true -> lang (Range lo hi) [c]
| L_seq r1 r2 u v : lang r1 u -> lang r2 v -> lang (Seq r1 r2) (u ++ v)
| L_alt_l r1 r2 u : lang r1 u -> lang (Alt r1 r2) u
| L_alt_r r1 r2 u : lang r2 u -> lang (Alt r1 r2) u
| L_star_nil r : lang (Star r) []
| L_star_cons r u v : lang r u -> lang (Star r) v -> lang (Star r) (u ++ v).

Fixpoint nullable (r : regex) : bool :=
  match r with
  | Void => false
  | Eps => true
  | Dot => false
  | Lit _ => false
  | Range _ _ => false
  | Seq r1 r2 => nullable r1 && nullable r2
  | Alt r1 r2 => nullable r1 || nullable r2
  | Star _ => true
  end.

(** Brzozowski derivative: the words [u] with [c :: u] in the language. *)
Fixpoint deriv (c : ascii) (r : regex) : regex :=
  match r with
  | Void => Void
  | Eps => Void
  | Dot => if is_newline c then Void else Eps
  | Lit c' => if Ascii.eqb c c' then Eps else Void
  | Range lo hi => if in_range lo hi c then Eps else Void
  | Seq r1 r2 =>
      if nullable r1
      then Alt (Seq (deriv c r1) r2) (deriv c r2)
      else Seq (deriv c r1) r2
  | Alt r1 r2 => Alt (deriv c r1) (deriv c r2)
  | Star r1 => Seq (deriv c r1) (Star r1)
  end.

(** [pattern.match(s)]: some prefix of [s] is a word of the pattern. *)
Fixpoint match_prefix (r : regex) (s : list ascii) : bool :=
  nullable r ||
  match s with
  | [] => false
  | c :: s' => match_prefix (deriv c r) s'
  end.

Definition re_match (r : regex) (s : string) : bool :=
  match_prefix r (list_ascii_of_string s).

End Re.

(** ** Configuration *)

(** [handover_config] is imported by the module and is not part of the
    sources: its attributes are taken as the fields of a record. *)
Record config : Type := {
  hc_uri : string;
  hc_web_uri : string;
  copy_uri : string;
  copy_web_uri : string;
  production_uri : string;
  compara_uri : string;
  staging_uri : string;
  live_uri : string;
  data_files_path : string;
  smtp_server : string;
  core_handover_group : string;
  variation_handover_group : string;
  funcgen_handover_group : string;
  compara_handover_group : string
}.

(** ** The classifier *)

Import Re.

(** [".*[a-z]_(core|rnaseq|cdna|otherfeatures)_[0-9].*"] and its siblings:
    [.*], a lower-case letter, an underscore, the keyword, an underscore, a
    digit, [.*]. *)
Definition db_pattern (keyword : regex) : regex :=
  Seq (Star Dot)
    (Seq (Range "a" "z")
      (Seq (Lit "_")
        (Seq keyword
          (Seq (Lit "_")
            (Seq (Range "0" "9") (Star Dot)))))).

Definition core_pattern : regex :=
  db_pattern
    (Alt (word "core") (Alt (word "rnaseq") (Alt (word "cdna") (word "otherfeatures")))).
Definition variation_pattern : regex := db_pattern (word "variation").
Definition compara_pattern : regex := db_pattern (word "compara").
Definition funcgen_pattern : regex := db_pattern (word "funcgen").

(** Find which HC group to run on a given database. *)
Definition groups_for_uri (cfg : config) (uri : string) : option (list pyval) :=
  if re_match core_pattern uri then Some [PStr (core_handover_group cfg)]
  else if re_match variation_pattern uri then Some [PStr (variation_handover_group cfg)]
  else if re_match funcgen_pattern uri then Some [PStr (funcgen_handover_group cfg)]
  else if re_match compara_pattern uri then Some [PStr (compara_handover_group cfg)]
  else None.

(** ** Exceptions, tasks, events *)

(** Exceptions raised by code outside the module: the job clients
    ([hc_client], [db_copy_client]) and the database library. *)
Inductive ext_exn : Type :=
| QueryError (msg : string)
| SubmissionError (msg : string)
| LibraryError (msg : string).

Inductive exn : Type :=
| Retry                       (* celery.exceptions.Retry, raised by [self.retry()] *)
| KeyError (k : string)
| TypeError
| ValueError (msg : string)
| SystemError                 (* a reference to no object: never raised from a worker or client start *)
| External (e : ext_exn).

Inductive outcome (A : Type) : Type :=
| Return (a : A)
| Raise (e : exn).
Arguments Return {A} a.
Arguments Raise {A} e.

(** What an external call answers. *)
Inductive reply (A : Type) : Type :=
| Ok (a : A)
| Fails (e : ext_exn).
Arguments Ok {A} a.
Arguments Fails {A} e.

(** A message on the broker: the task's name with its serialised arguments
    (the request dict travels by value). *)
Inductive task : Type :=
| ProcessCheckedDb (hc_job_id : pyval) (spec : dict)
| ProcessCopiedDb (copy_job_id : pyval) (spec : dict)
| ProcessDbMetadata (meta_job_id : pyval) (spec : dict).

Definition task_spec (t : task) : dict :=
  match t with
  | ProcessCheckedDb _ d => d
  | ProcessCopiedDb _ d => d
  | ProcessDbMetadata _ d => d
  end.

(** The calls that leave the module, in the order they happen. *)
Inductive event : Type :=
| EvUuid
| EvHcSubmit (args : list pyval)
| EvHcRetrieve (uri : string) (job : pyval)
| EvCopySubmit (args : list pyval)
| EvCopyRetrieve (uri : string) (job : pyval)
| EvEmail (to_address : pyval) (subject body server : string)
| EvDelay (t : task)
| EvRetry (t : task)
| EvFailure (t : task) (e : exn).

Definition is_uuid (e : event) : bool :=
  match e with EvUuid => true | _ => false end.
Definition is_hc_submit (e : event) : bool :=
  match e with EvHcSubmit _ => true | _ => false end.
Definition is_hc_retrieve (e : event) : bool :=
  match e with EvHcRetrieve _ _ => true | _ => false end.
Definition is_copy_submit (e : event) : bool :=
  match e with EvCopySubmit _ => true | _ => false end.
Definition is_copy_retrieve (e : event) : bool :=
  match e with EvCopyRetrieve _ _ => true | _ => false end.
Definition is_email (e : event) : bool :=
  match e with EvEmail _ _ _ _ => true | _ => false end.
Definition is_email_with (subject : string) (e : event) : bool :=
  match e with EvEmail _ s _ _ => String.eqb s subject | _ => false end.
Definition is_delay (e : event) : bool :=
  match e with EvDelay _ => true | _ => false end.
Definition is_retry (e : event) : bool :=
  match e with EvRetry _ => true | _ => false end.
Definition is_failure (e : event) : bool :=
  match e with EvFailure _ _ => true | _ => false end.

Definition count (p : event -> bool) (tr : list event) : nat :=
  List.length (filter p tr).

(** ** The world *)

Definition ref := nat.

(** [heap]: the dict objects of the running process, addressed by position;
    [queue]: the broker, oldest message first; [trace]: newest event first;
    [writes]: the item assignments made on request dicts, newest first. *)
Record world : Type := {
  heap : list dict;
  queue : list task;
  trace : list event;
  writes : list (string * pyval)
}.

(** How many times key [k] was assigned. *)
Definition assignments (k : string) (w : world) : nat :=
  List.length (filter (fun kv => String.eqb (fst kv) k) (writes w)).

(** The events in the order they happened. *)
Definition history (w : world) : list event := rev (trace w).

Fixpoint heap_update (r : ref) (d : dict) (h : list dict) : list dict :=
  match h, r with
  | [], _ => []
  | _ :: h', O => d :: h'
  | d' :: h', S r' => d' :: heap_update r' d h'
  end.

(** What the module calls and does not define.  A job client's answer may
    change from call to call, so each takes the number of earlier calls of
    the same function.  [repr] is the printed form of a value that is not a
    string, [fresh_task_id] the id the substrate gives the n-th message. *)
Record Env : Type := {
  repr : pyval -> string;
  uuid1 : nat -> string;
  database_exists : pyval -> reply bool;
  make_url_database : pyval -> reply pyval;
  hc_submit_job : nat -> list pyval -> reply pyval;
  hc_retrieve_job : nat -> string -> pyval -> reply pyval;
  copy_submit_job : nat -> list pyval -> reply pyval;
  copy_retrieve_job : nat -> string -> pyval -> reply pyval;
  fresh_task_id : nat -> pyval
}.

(** ** The monad of the module's functions *)

Definition M (A : Type) : Type := world -> outcome A * world.

Definition ret {A} (a : A) : M A := fun w => (Return a, w).

Definition raise {A} (e : exn) : M A := fun w => (Raise e, w).

Definition bind {A B} (m : M A) (k : A -> M B) : M B :=
  fun w =>
    match m w with
    | (Return a, w') => k a w'
    | (Raise e, w') => (Raise e, w')
    end.

Declare Scope py_scope.
Delimit Scope py_scope with py.
Notation "x <- m ;; k" := (bind m (fun x => k))
  (at level 61, m at next level, right associativity) : py_scope.
Notation "m ;; k" := (bind m (fun _ => k))
  (at level 61, right associativity) : py_scope.
Open Scope py_scope.

Definition emit (e : event) : M unit :=
  fun w =>
    (Return tt,
     {| heap := heap w; queue := queue w; trace := e :: trace w; writes := writes w |}).

Definition enqueue (t : task) : M unit :=
  fun w =>
    (Return tt,
     {| heap := heap w; queue := (queue w ++ [t])%list; trace := trace w;
        writes := writes w |}).

Definition calls (p : event -> bool) : M nat :=
  fun w => (Return (count p (trace w)), w).

Definition lift_reply {A} (r : reply A) : M A :=
  match r with
  | Ok a => ret a
  | Fails e => raise (External e)
  end.

(** *** Dict objects *)

(** The dict a reference points to; also what serialising it sends. *)
Definition snapshot (spec : ref) : M dict :=
  fun w =>
    match nth_error (heap w) spec with
    | Some d => (Return d, w)
    | None => (Raise SystemError, w)
    end.

(** [spec[k]] *)
Definition getitem (spec : ref) (k : string) : M pyval :=
  d <- snapshot spec ;;
  match dict_get k d with
  | Some v => ret v
  | None => raise (KeyError k)
  end.

(** [spec[k] = v] *)
Definition setitem (spec : ref) (k : string) (v : pyval) : M unit :=
  d <- snapshot spec ;;
  fun w =>
    (Return tt,
     {| heap := heap_update spec (dict_set k v d) (heap w);
        queue := queue w; trace := trace w; writes := (k, v) :: writes w |}).

(** [k in spec] *)
Definition contains (spec : ref) (k : string) : M bool :=
  d <- snapshot spec ;; ret (dict_mem k d).

(** *** Values *)

(** [v[k]] for a string key: a dict is looked up, nothing else can be
    indexed by a string. *)
Definition py_index (v : pyval) (k : string) : outcome pyval :=
  match v with
  | PDict d =>
      match dict_get k d with
      | Some x => Return x
      | None => Raise (KeyError k)
      end
  | _ => Raise TypeError
  end.

Definition py_getitem (v : pyval) (k : string) : M pyval :=
  fun w => (py_index v k, w).

(** [v + 'lit'] and ['lit' + v]: concatenation when [v] is a string. *)
Definition add_lit (v : pyval) (lit : string) : M string :=
  match v with
  | PStr s => ret (s ++ lit)
  | _ => raise TypeError
  end.

Definition lit_add (lit : string) (v : pyval) : M string :=
  match v with
  | PStr s => ret (lit ++ s)
  | _ => raise TypeError
  end.

(** The subject of [pattern.match]: a string, or [TypeError]. *)
Definition re_subject (v : pyval) : M string :=
  match v with
  | PStr s => ret s
  | _ => raise TypeError
  end.

(** Short-circuit [or]. *)
Definition or_else (a b : M bool) : M bool :=
  x <- a ;; if x then ret true else b.

(** ** The module's functions *)

Section Pipeline.

Variable env : Env.
Variable cfg : config.

(** [str(v)] *)
Definition py_str (v : pyval) : string :=
  match v with
  | PStr s => s
  | _ => repr env v
  end.

(** *** External calls *)

Definition uuid : M string :=
  n <- calls is_uuid ;; emit EvUuid ;; ret (uuid1 env n).

Definition hc_client_submit_job (args : list pyval) : M pyval :=
  n <- calls is_hc_submit ;;
  emit (EvHcSubmit args) ;;
  lift_reply (hc_submit_job env n args).

Definition hc_client_retrieve_job (uri : string) (job : pyval) : M pyval :=
  n <- calls is_hc_retrieve ;;
  emit (EvHcRetrieve uri job) ;;
  lift_reply (hc_retrieve_job env n uri job).

Definition db_copy_client_submit_job (args : list pyval) : M pyval :=
  n <- calls is_copy_submit ;;
  emit (EvCopySubmit args) ;;
  lift_reply (copy_submit_job env n args).

Definition db_copy_client_retrieve_job (uri : string) (job : pyval) : M pyval :=
  n <- calls is_copy_retrieve ;;
  emit (EvCopyRetrieve uri job) ;;
  lift_reply (copy_retrieve_job env n uri job).

(** Modelled from the spec: [send_email] of [ensembl_prodinf/utils.py],
    which is not among the sources.  The Notifier dispatches the message;
    a delivery failure is logged and neither aborts nor retries the step,
    so the call always returns. *)
Definition send_email (to_address : pyval) (subject body server : string) : M unit :=
  emit (EvEmail to_address subject body server).

(** [task.delay(args)]: the message goes to the broker, the caller gets
    its id. *)
Definition delay (t : task) : M pyval :=
  n <- calls is_delay ;;
  enqueue t ;;
  emit (EvDelay t) ;;
  ret (fresh_task_id env n).

(** [self.retry()] with [max_retries = None]: the task's own message goes
    back to the broker and [Retry] is raised, whatever the number of
    earlier retries. *)
Definition self_retry {A} (self : task) : M A :=
  enqueue self ;;
  emit (EvRetry self) ;;
  raise Retry.

(** [result['status'] == lit] *)
Definition status_is (result : pyval) (lit : string) : M bool :=
  st <- py_getitem result "status" ;; ret (py_eq_str st lit).

(** The condition shared by the two polling tasks. *)
Definition still_running (result : pyval) : M bool :=
  or_else (status_is result "incomplete")
    (or_else (status_is result "running") (status_is result "submitted")).

(** *** Metadata stage *)

(** Returns a placeholder: nothing is submitted. *)
Definition submit_metadata_update (uri : pyval) : M pyval :=
  ret (PStr "metaplaceholder_db_id").

Definition process_db_metadata (self : task) (meta_job_id : pyval) (spec : ref)
  : M pyval :=
  ret PNone.

(** *** Copy stage *)

Definition process_copied_db (self : task) (copy_job_id : pyval) (spec : ref)
  : M pyval :=
  result <- db_copy_client_retrieve_job (copy_uri cfg) copy_job_id ;;
  running <- still_running result ;;
  if running then self_retry self
  else
    failed <- status_is result "failed" ;;
    if failed then
      src <- getitem spec "src_uri" ;;
      tgt <- getitem spec "tgt_uri" ;;
      let msg :=
        nl ++ "Copying " ++ py_str src ++ " to " ++ py_str tgt ++ " failed." ++ nl
           ++ "Please see " ++ (copy_web_uri cfg ++ py_str copy_job_id) ++ nl in
      contact <- getitem spec "contact" ;;
      send_email contact "Database copy failed" msg (smtp_server cfg) ;;
      ret PNone
    else
      tgt <- getitem spec "tgt_uri" ;;
      meta_job_id <- submit_metadata_update tgt ;;
      d <- snapshot spec ;;
      task_id <- delay (ProcessDbMetadata meta_job_id d) ;;
      ret task_id.

Definition submit_copy (spec : ref) : M pyval :=
  src <- getitem spec "src_uri" ;;
  tgt <- getitem spec "tgt_uri" ;;
  copy_job_id <-
    db_copy_client_submit_job
      [PStr (copy_uri cfg); src; tgt; PNone; PNone; PBool false; PBool true; PNone] ;;
  setitem spec "copy_job_id" copy_job_id ;;
  d <- snapshot spec ;;
  task_id <- delay (ProcessCopiedDb copy_job_id d) ;;
  ret task_id.

(** *** Validation stage *)

Definition process_checked_db (self : task) (hc_job_id : pyval) (spec : ref)
  : M pyval :=
  src <- getitem spec "src_uri" ;;
  lit_add "Checking HCs for " src ;;
  result <- hc_client_retrieve_job (hc_uri cfg) hc_job_id ;;
  running <- still_running result ;;
  if running then self_retry self
  else
    failed <- status_is result "failed" ;;
    if failed then
      src <- getitem spec "src_uri" ;;
      let msg :=
        nl ++ "Running healthchecks vs " ++ py_str src ++ " failed to execute." ++ nl
           ++ "Please see " ++ (hc_web_uri cfg ++ py_str hc_job_id) ++ nl in
      contact <- getitem spec "contact" ;;
      send_email contact "HC failed to run" msg (smtp_server cfg) ;;
      ret PNone
    else
      output <- py_getitem result "output" ;;
      out_status <- py_getitem output "status" ;;
      if py_eq_str out_status "failed" then
        src <- getitem spec "src_uri" ;;
        let msg :=
          nl ++ "Running healthchecks vs " ++ py_str src
             ++ " completed but found failures." ++ nl
             ++ "Please see " ++ (hc_web_uri cfg ++ py_str hc_job_id) ++ nl in
        contact <- getitem spec "contact" ;;
        send_email contact "HC ran but failed" msg (smtp_server cfg) ;;
        ret PNone
      else
        submit_copy spec ;;
        ret PNone.

Definition submit_hc (spec : ref) (groups : list pyval) : M pyval :=
  src <- getitem spec "src_uri" ;;
  hc_job_id <-
    hc_client_submit_job
      [PStr (hc_uri cfg); src; PStr (production_uri cfg); PStr (compara_uri cfg);
       PStr (staging_uri cfg); PStr (live_uri cfg); PNone; PList groups;
       PStr (data_files_path cfg); PNone] ;;
  setitem spec "hc_job_id" hc_job_id ;;
  d <- snapshot spec ;;
  task_id <- delay (ProcessCheckedDb hc_job_id d) ;;
  contact <- getitem spec "contact" ;;
  src <- getitem spec "src_uri" ;;
  send_email contact "HC submitted"
    (py_str src ++ " has been submitted for checking") (smtp_server cfg) ;;
  ret task_id.

(** *** Intake *)

(** Create target URI from staging details and name of source database. *)
Definition get_tgt_uri (src_uri : pyval) : M string :=
  database <- lift_reply (make_url_database env src_uri) ;;
  ret (py_str (PStr (staging_uri cfg)) ++ py_str database).

(** Check if source database exists. *)
Definition check_db (uri : pyval) : M unit :=
  found <- lift_reply (database_exists env uri) ;;
  if negb found then
    add_lit uri " does not exist" ;;
    msg <- add_lit uri " does not exist" ;;
    raise (ValueError msg)
  else
    add_lit uri " looks good to me" ;;
    ret tt.

Definition handover_database (spec : ref) : M pyval :=
  has_tgt <- contains spec "tgt_uri" ;;
  (if negb has_tgt then
     src <- getitem spec "src_uri" ;;
     tgt <- get_tgt_uri src ;;
     setitem spec "tgt_uri" (PStr tgt)
   else ret tt) ;;
  token <- uuid ;;
  setitem spec "handover_token" (PStr token) ;;
  src <- getitem spec "src_uri" ;;
  check_db src ;;
  src <- getitem spec "src_uri" ;;
  uri <- re_subject src ;;
  match groups_for_uri cfg uri with
  | None => submit_copy spec
  | Some groups => submit_hc spec groups
  end ;;
  getitem spec "handover_token".

(** ** The worker *)

(** A worker deserialises the message: the request dict is a fresh object,
    the only one of the execution. *)
Definition run_task (t : task) : M pyval :=
  fun w =>
    let w0 :=
      {| heap := [task_spec t]; queue := queue w; trace := trace w;
         writes := writes w |} in
    match t with
    | ProcessCheckedDb hc_job_id _ => process_checked_db t hc_job_id 0 w0
    | ProcessCopiedDb copy_job_id _ => process_copied_db t copy_job_id 0 w0
    | ProcessDbMetadata meta_job_id _ => process_db_metadata t meta_job_id 0 w0
    end.

(** One message is taken from the broker and executed.  [Retry] is the
    substrate's own signal; any other exception fails the task. *)
Definition worker_step (w : world) : world :=
  match queue w with
  | [] => w
  | t :: q =>
      match
        run_task t
          {| heap := heap w; queue := q; trace := trace w; writes := writes w |}
      with
      | (Return _, w') => w'
      | (Raise Retry, w') => w'
      | (Raise e, w') =>
          {| heap := heap w'; queue := queue w';
             trace := EvFailure t e :: trace w'; writes := writes w' |}
      end
  end.

Fixpoint run (n : nat) (w : world) : world :=
  match n with
  | O => w
  | S n' => run n' (worker_step w)
  end.

(** The client process that calls [handover_database(spec)]: the request
    dict is its object 0, the broker is idle, nothing has happened yet. *)
Definition client (spec : dict) : world :=
  {| heap := [spec]; queue := []; trace := []; writes := [] |}.

(** Intake followed by [n] task executions. *)
Definition pipeline (spec : dict) (n : nat) : world :=
  run n (snd (handover_database 0 (client spec))).

End Pipeline.

(** ** Notions used to state the properties *)

(** *** The classifier as the specification words it *)

(** The ordered rule table: core-like, variation-like, functional-genomics-like
    and comparative-genomics-like naming, each bound to its group. *)
Definition rule_table (cfg : config) : list (regex * string) :=
  [ (core_pattern, core_handover_group cfg);
    (variation_pattern, variation_handover_group cfg);
    (funcgen_pattern, funcgen_handover_group cfg);
    (compara_pattern, compara_handover_group cfg) ].

(** The group bound to the first rule that matches, or nothing. *)
Fixpoint first_match (rules : list (regex * string)) (uri : string) : option string :=
  match rules with
  | [] => None
  | (p, g) :: rest => if re_match p uri then Some g else first_match rest uri
  end.

Definition classify (cfg : config) (uri : string) : option string :=
  first_match (rule_table cfg) uri.

(** *** Job-status payloads *)

(** The payload's ['status'] equals [lit]. *)
Definition reports (p : pyval) (lit : string) : bool :=
  match py_index p "status" with
  | Return v => py_eq_str v lit
  | Raise _ => false
  end.

(** The payload says the job has not finished. *)
Definition in_progress (p : pyval) : bool :=
  reports p "incomplete" || reports p "running" || reports p "submitted".

(** The nested output of a validation payload can be read and its status is
    not ['failed']. *)
Definition clean_output (p : pyval) : bool :=
  match py_index p "output" with
  | Return o =>
      match py_index o "status" with
      | Return s => negb (py_eq_str s "failed")
      | Raise _ => false
      end
  | Raise _ => false
  end.

(** The nested output can be read and its status is ['failed']. *)
Definition failed_output (p : pyval) : bool :=
  match py_index p "output" with
  | Return o =>
      match py_index o "status" with
      | Return s => py_eq_str s "failed"
      | Raise _ => false
      end
  | Raise _ => false
  end.




(** *** Requests *)

(** The arguments [submit_copy] and [submit_hc] pass to the job clients. *)
Definition copy_args (cfg : config) (src tgt : pyval) : list pyval :=
  [PStr (copy_uri cfg); src; tgt; PNone; PNone; PBool false; PBool true; PNone].

Definition hc_args (cfg : config) (src : pyval) (groups : list pyval) : list pyval :=
  [PStr (hc_uri cfg); src; PStr (production_uri cfg); PStr (compara_uri cfg);
   PStr (staging_uri cfg); PStr (live_uri cfg); PNone; PList groups;
   PStr (data_files_path cfg); PNone].

(** The request dict once intake has filled in the target and the token. *)
Definition target_of (env : Env) (cfg : config) (spec : dict) (uri : string) : pyval :=
  match dict_get "tgt_uri" spec with
  | Some t => t
  | None =>
      match make_url_database env (PStr uri) with
      | Ok db => PStr (staging_uri cfg ++ py_str env db)
      | Fails _ => PNone
      end
  end.

Definition admitted_spec (env : Env) (cfg : config) (spec : dict) (uri : string) : dict :=
  dict_set "handover_token" (PStr (uuid1 env 0))
    (if dict_mem "tgt_uri" spec then spec
     else dict_set "tgt_uri" (target_of env cfg spec uri) spec).

(** Intake gets as far as classification: the source is the string [uri],
    a target is given or can be derived, and the source database exists. *)
Definition intake_passes (env : Env) (spec : dict) (uri : string) : Prop :=
  dict_get "src_uri" spec = Some (PStr uri)
  /\ (dict_mem "tgt_uri" spec = true
      \/ exists db, make_url_database env (PStr uri) = Ok db)
  /\ database_exists env (PStr uri) = Ok true.

(** *** Concrete configuration, services and requests *)

Module Demo.

Definition cfg : config :=
  {| hc_uri := "http://hc/"; hc_web_uri := "http://hc/jobs/";
     copy_uri := "http://copy/"; copy_web_uri := "http://copy/jobs/";
     production_uri := "mysql://prod/"; compara_uri := "mysql://compara/";
     staging_uri := "mysql://staging/"; live_uri := "mysql://live/";
     data_files_path := "/data"; smtp_server := "smtp.example.org";
     core_handover_group := "CoreHandover";
     variation_handover_group := "VariationRelease";
     funcgen_handover_group := "FuncgenRelease";
     compara_handover_group := "ComparaRelease" |}.

Definition status (s : string) : pyval := PDict [("status", PStr s)].

Definition status_with_output (s o : string) : pyval :=
  PDict [("status", PStr s); ("output", status o)].

(** Services whose n-th answers are given by [hc] and [copy]. *)
Definition services (hc copy : nat -> reply pyval) : Env :=
  {| repr := fun v => match v with PInt 7 => "7" | PInt 9 => "9" | _ => "?" end;
     uuid1 := fun _ => "6f1c";
     database_exists := fun _ => Ok true;
     make_url_database := fun _ => Ok (PStr "db");
     hc_submit_job := fun _ _ => Ok (PInt 7);
     hc_retrieve_job := fun n _ _ => hc n;
     copy_submit_job := fun _ _ => Ok (PInt 9);
     copy_retrieve_job := fun n _ _ => copy n;
     fresh_task_id := fun n => PInt (Z.of_nat n) |}.

(** Validation reports submitted, running, incomplete, then succeeded with
    a clean output; the copy runs once and succeeds. *)
Definition slow_hc (n : nat) : reply pyval :=
  match n with
  | 0 => Ok (status "submitted")
  | 1 => Ok (status "running")
  | 2 => Ok (status "incomplete")
  | _ => Ok (status_with_output "succeeded" "succeeded")
  end.

Definition slow_copy (n : nat) : reply pyval :=
  match n with
  | 0 => Ok (status "running")
  | _ => Ok (status "succeeded")
  end.

Definition env : Env := services slow_hc slow_copy.

Definition request (src : string) : dict :=
  [("src_uri", PStr src); ("contact", PStr "dba@example.org"); ("type", PStr "new")].

Definition core_db : string := "mysql://ro@host/homo_sapiens_core_91_38".
Definition plain_db : string := "mysql://ro@host/ensembl_accounts".

(** A request as the copy stage sees it. *)
Definition staged (src : string) : dict :=
  (request src ++ [("tgt_uri", PStr "mysql://staging/db")])%list.

(** A broker holding the messages [ts], before anything has happened. *)
Definition waiting (ts : list task) : world :=
  {| heap := []; queue := ts; trace := []; writes := [] |}.

(** Services that give the same answer to every status query. *)
Definition answering (p : pyval) : Env := services (fun _ => Ok p) (fun _ => Ok p).

End Demo.

(** *** The polling tasks *)

(** The status query a polling task makes, and what the job client answers
    when the task runs in world [w]. *)
Definition query_event (cfg : config) (t : task) : event :=
  match t with
  | ProcessCheckedDb id _ => EvHcRetrieve (hc_uri cfg) id
  | ProcessCopiedDb id _ => EvCopyRetrieve (copy_uri cfg) id
  | ProcessDbMetadata id _ => EvCopyRetrieve (copy_uri cfg) id
  end.


(** An awaiting state: the task polls a job, and its request lets it get to
    the query ([process_checked_db] first builds a log line from the source
    identifier, which must be a string). *)
Definition awaiting (t : task) : Prop :=
  match t with
  | ProcessCheckedDb _ d => exists s, dict_get "src_uri" d = Some (PStr s)
  | ProcessCopiedDb _ _ => True
  | ProcessDbMetadata _ _ => False
  end.


(** *** Intake *)

(** The item assignments intake makes before it classifies the source. *)
Definition intake_writes (env : Env) (cfg : config) (spec : dict) (uri : string)
  : list (string * pyval) :=
  ("handover_token", PStr (uuid1 env 0))
  :: (if dict_mem "tgt_uri" spec then []
      else [("tgt_uri", target_of env cfg spec uri)]).

(** The client's world when intake reaches the classification. *)
Definition admitted (env : Env) (cfg : config) (spec : dict) (uri : string) : world :=
  {| heap := [admitted_spec env cfg spec uri]; queue := []; trace := [EvUuid];
     writes := intake_writes env cfg spec uri |}.

(** *** Whole runs *)

Definition is_checked_task (t : task) : bool :=
  match t with ProcessCheckedDb _ _ => true | _ => false end.

(** The validation stage has left no mark on the run. *)
Definition skips_validation (w : world) : Prop :=
  forallb (fun t => negb (is_checked_task t)) (queue w) = true
  /\ count is_hc_submit (trace w) = 0
  /\ count is_hc_retrieve (trace w) = 0
  /\ assignments "hc_job_id" w = 0.

(** No external job submitted twice, no job-id field assigned twice. *)
Definition submitted_once (w : world) : Prop :=
  count is_hc_submit (trace w) <= 1
  /\ count is_copy_submit (trace w) <= 1
  /\ assignments "hc_job_id" w <= 1
  /\ assignments "copy_job_id" w <= 1.

(** What holds between two task executions of a run started by intake: at
    most one message is waiting, and while it is the validation check no
    copy has been submitted. *)
Definition stage_invariant (w : world) : Prop :=
  count is_hc_submit (trace w) <= 1
  /\ assignments "hc_job_id" w <= 1
  /\ assignments "copy_job_id" w <= count is_copy_submit (trace w)
  /\ count is_copy_submit (trace w) <= 1
  /\ match queue w with
     | [] => True
     | [ProcessCheckedDb _ _] => count is_copy_submit (trace w) = 0
     | [_] => True
     | _ => False
     end.

(** The copy check of job [cid] is the only message waiting, the job has
    been polled [k] times, and nobody has been notified of anything. *)
Definition copy_pending (cid : pyval) (d : dict) (k : nat) (w : world) : Prop :=
  queue w = [ProcessCopiedDb cid d]
  /\ count is_copy_retrieve (trace w) = k
  /\ count is_retry (trace w) = k
  /\ count is_email (trace w) = 0
  /\ count is_failure (trace w) = 0.

(** The run is over and nobody has been notified of anything. *)
Definition finished_silently (retries : nat) (w : world) : Prop :=
  queue w = []
  /\ count is_retry (trace w) = retries
  /\ count is_email (trace w) = 0
  /\ count is_failure (trace w) = 0.

(** *** Messages and stages of a run *)

(** The subjects of the messages the module sends. *)
Definition module_subjects : list string :=
  ["HC submitted"; "HC failed to run"; "HC ran but failed"; "Database copy failed"].

Definition known_message (e : event) : bool :=
  match e with
  | EvEmail _ s _ _ => existsb (String.eqb s) module_subjects
  | _ => true
  end.

(** While a message waits at most one notification has gone out; at most
    two once none waits. *)
Definition message_budget (w : world) : Prop :=
  match queue w with
  | [] => count is_email (trace w) <= 2
  | [_] => count is_email (trace w) <= 1
  | _ => False
  end.

(** The answer a polling task gets to its [k]-th status query, and the
    number of such queries a trace holds. *)
Definition nth_reply (env : Env) (cfg : config) (t : task) (k : nat) : reply pyval :=
  match t with
  | ProcessCheckedDb id _ => hc_retrieve_job env k (hc_uri cfg) id
  | ProcessCopiedDb id _ => copy_retrieve_job env k (copy_uri cfg) id
  | ProcessDbMetadata _ _ => Ok PNone
  end.

Definition queries_made (t : task) (tr : list event) : nat :=
  match t with
  | ProcessCheckedDb _ _ => count is_hc_retrieve tr
  | ProcessCopiedDb _ _ => count is_copy_retrieve tr
  | ProcessDbMetadata _ _ => 0
  end.

(** *** Database names *)

Definition not_newline (c : ascii) : bool := negb (is_newline c).
Definition lower_case (c : ascii) : bool := in_range "a" "z" c.
Definition digit (c : ascii) : bool := in_range "0" "9" c.

(** The keywords of the four patterns. *)
Definition keywords : list string :=
  ["core"; "rnaseq"; "cdna"; "otherfeatures"; "variation"; "funcgen"; "compara"].

(** [s] reads: a first line up to a lower-case letter, [_keyword_], a digit,
    then anything. *)
Definition names_database (keyword : string) (s : list ascii) : Prop :=
  exists before letter number rest,
    s = (before ++ letter :: "_"%char
           :: list_ascii_of_string keyword ++ "_"%char :: number :: rest)%list
    /\ forallb not_newline before = true
    /\ lower_case letter = true
    /\ digit number = true.

(** ** The e-mail task of [email_tasks.py] *)

Module EmailTasks.

(** What [response.json()] raises when the body cannot be decoded: the
    standard library's [json.JSONDecodeError] (or a subclass of it), or an
    error of another class, as when requests decodes with simplejson, whose
    [JSONDecodeError] is a [ValueError] but not a [json.JSONDecodeError]. *)
Inductive decode_error : Type :=
| JSONDecodeError
| OtherDecodeError (msg : string).

(** What [session.get(url)] gives back: [json] is what [response.json()]
    decodes, none when the body cannot be decoded, and then [json_error] is
    what the decoder raises. *)
Record response : Type := {
  status_code : Z;
  text : string;
  json : option pyval;
  json_error : decode_error
}.

(** [app.conf]: the three settings the module reads. *)
Record conf : Type := {
  conf_smtp_server : pyval;
  conf_from_email_address : pyval;
  retry_wait : pyval
}.

(** The message of the one task that polls. *)
Inductive message : Type :=
| EmailWhenComplete (url : string) (address : pyval).

Inductive effect : Type :=
| Get (url : string)
| Sent (server from_address to_address subject body : pyval)
| RetryIn (countdown : pyval) (m : message)
| Rejected (m : message).

(** How a task execution ends: with a value, with [Reject(e, requeue)], or
    with another exception. *)
Inductive ending : Type :=
| Returns (v : pyval)
| Rejects (requeue : bool)
| Raises (e : exn).

Record state : Type := {
  pending : list message;
  effects : list effect
}.

Definition is_get (e : effect) : bool :=
  match e with Get _ => true | _ => false end.
Definition is_sent (e : effect) : bool :=
  match e with Sent _ _ _ _ _ => true | _ => false end.
Definition is_retry_in (e : effect) : bool :=
  match e with RetryIn _ _ => true | _ => false end.
Definition is_rejected (e : effect) : bool :=
  match e with Rejected _ => true | _ => false end.

Definition tally (p : effect -> bool) (l : list effect) : nat :=
  List.length (filter p l).

Definition note (e : effect) (s : state) : state :=
  {| pending := pending s; effects := e :: effects s |}.

Definition requeue (m : message) (s : state) : state :=
  {| pending := (pending s ++ [m])%list; effects := effects s |}.

(** Task to check a URL and send an email once the result has a
    non-incomplete status.  [http_get k url] is the answer to the [k]-th
    request. *)
Definition email_when_complete
  (http_get : nat -> string -> reply response) (cf : conf)
  (self : message) (url : string) (address : pyval) (s : state) : ending * state :=
  let s1 := note (Get url) s in
  match http_get (tally is_get (effects s)) url with
  | Fails e => (Raises (External e), s1)
  | Ok resp =>
      match json resp with
      | None =>
          match json_error resp with
          | JSONDecodeError => (Rejects false, s1)
          | OtherDecodeError msg => (Raises (ValueError msg), s1)
          end
      | Some result =>
          match py_index result "status" with
          | Raise e => (Raises e, s1)
          | Return _ =>
              if in_progress result then
                (Raises Retry, note (RetryIn (retry_wait cf) self) (requeue self s1))
              else
                match py_index result "subject" with
                | Raise e => (Raises e, s1)
                | Return subject =>
                    match py_index result "body" with
                    | Raise e => (Raises e, s1)
                    | Return body =>
                        (Returns result,
                         note (Sent (conf_smtp_server cf) (conf_from_email_address cf)
                                 address subject body) s1)
                    end
                end
          end
      end
  end.

(** The worker of the e-mail application: a rejected message that is not to
    be requeued is dropped. *)
Definition work (http_get : nat -> string -> reply response) (cf : conf) (s : state)
  : state :=
  match pending s with
  | [] => s
  | (EmailWhenComplete url address as m) :: rest =>
      match
        email_when_complete http_get cf m url address
          {| pending := rest; effects := effects s |}
      with
      | (Rejects false, s') => note (Rejected m) s'
      | (Rejects true, s') => requeue m s'
      | (_, s') => s'
      end
  end.

Fixpoint works (http_get : nat -> string -> reply response) (cf : conf)
  (n : nat) (s : state) : state :=
  match n with
  | O => s
  | S n' => works http_get cf n' (work http_get cf s)
  end.

Definition demo_conf : conf :=
  {| conf_smtp_server := PStr "smtp.example.org";
     conf_from_email_address := PStr "prodinf@example.org";
     retry_wait := PInt 60 |}.

Definition page (body : option pyval) : response :=
  {| status_code := 200; text := "..."; json := body;
     json_error := JSONDecodeError |}.

(** A page that is not JSON, fetched where requests decodes with
    simplejson. *)
Definition simplejson_page : response :=
  {| status_code := 200; text := "<html>"; json := None;
     json_error := OtherDecodeError "Expecting value: line 1 column 1 (char 0)" |}.

Definition report (status : string) : pyval :=
  PDict [("status", PStr status); ("subject", PStr "Copy done");
         ("body", PStr "All tables copied")].

End EmailTasks.

(** * Properties *)

(** ** The matcher decides prefix membership *)

Module ReFacts.
Import Re.

Lemma nullable_sound r : nullable r = true -> lang r [].
Proof.
  induction r; simpl; intro H; try discriminate.
  - constructor.
  - apply andb_true_iff in H as [H1 H2].
    change (@nil ascii) with (@nil ascii ++ [])%list.
    constructor; auto.
  - apply orb_true_iff in H as [H | H]; [apply L_alt_l | apply L_alt_r]; auto.
  - constructor.
Qed.

Lemma nullable_complete r : lang r [] -> nullable r = true.
Proof.
  induction r; simpl; intro H; inversion H; subst; auto.
  - match goal with E : (_ ++ _)%list = [] |- _ => apply app_eq_nil in E as [? ?] end.
    subst. rewrite IHr1, IHr2; auto.
  - rewrite IHr1; auto.
  - rewrite IHr2; auto using orb_true_r.
Qed.

Lemma star_cons_inv r c u :
  lang (Star r) (c :: u) ->
  exists u1 u2, u = (u1 ++ u2)%list /\ lang r (c :: u1) /\ lang (Star r) u2.
Proof.
  intro H. remember (Star r) as sr eqn:Esr. remember (c :: u) as w eqn:Ew.
  revert Esr Ew.
  induction H; intros Esr Ew; try discriminate.
  inversion Esr; subst.
  destruct u0 as [|a u0]; simpl in Ew.
  - apply IHlang2; auto.
  - inversion Ew; subst. exists u0, v. auto.
Qed.

Lemma deriv_sound r : forall c u, lang (deriv c r) u -> lang r (c :: u).
Proof.
  induction r; simpl; intros c0 u H.
  - inversion H.
  - inversion H.
  - destruct (is_newline c0) eqn:E; inversion H; subst. constructor; auto.
  - destruct (Ascii.eqb c0 c) eqn:E; inversion H; subst.
    apply Ascii.eqb_eq in E; subst. constructor.
  - destruct (in_range lo hi c0) eqn:E; inversion H; subst. constructor; auto.
  - destruct (nullable r1) eqn:E.
    + inversion H; subst.
      * match goal with S : lang (Seq _ _) _ |- _ => inversion S; subst end.
        rewrite app_comm_cons. constructor; auto.
      * change (c0 :: u) with ([] ++ c0 :: u)%list.
        constructor; auto using nullable_sound.
    + inversion H; subst. rewrite app_comm_cons. constructor; auto.
  - inversion H; subst; [apply L_alt_l | apply L_alt_r]; auto.
  - inversion H; subst. rewrite app_comm_cons. constructor; auto.
Qed.

Lemma deriv_complete r : forall c u, lang r (c :: u) -> lang (deriv c r) u.
Proof.
  induction r; simpl; intros c0 u H.
  - inversion H.
  - inversion H.
  - inversion H; subst.
    match goal with E : is_newline _ = false |- _ => rewrite E end. constructor.
  - inversion H; subst. rewrite Ascii.eqb_refl. constructor.
  - inversion H; subst.
    match goal with E : in_range _ _ _ = true |- _ => rewrite E end. constructor.
  - inversion H; subst.
    match goal with
    | E : (?u1 ++ ?v)%list = _ :: _, H1 : lang r1 ?u1 |- _ =>
        destruct u1 as [|a u1]; simpl in E;
        [ subst v; rewrite (nullable_complete H1); apply L_alt_r; auto
        | inversion E; subst;
          destruct (nullable r1); [apply L_alt_l|]; constructor; auto ]
    end.
  - inversion H; subst; [apply L_alt_l | apply L_alt_r]; auto.
  - apply star_cons_inv in H as (u1 & u2 & -> & H1 & H2).
    constructor; auto.
Qed.

(** [match_prefix] answers [true] exactly when a prefix of the subject is
    a word of the pattern. *)
Lemma match_prefix_correct s : forall r,
  match_prefix r s = true <-> exists u v, s = (u ++ v)%list /\ lang r u.
Proof.
  induction s as [|c s IH]; intro r; simpl.
  - rewrite orb_false_r. split.
    + intro H. exists [], []. auto using nullable_sound.
    + intros (u & v & E & H). symmetry in E. apply app_eq_nil in E as [-> _].
      auto using nullable_complete.
  - rewrite orb_true_iff, IH. split.
    + intros [H | (u & v & E & H)].
      * exists [], (c :: s). auto using nullable_sound.
      * exists (c :: u), v. subst. auto using deriv_sound.
    + intros (u & v & E & H). destruct u as [|a u]; simpl in E.
      * left. auto using nullable_complete.
      * inversion E; subst. right. exists u, v. auto using deriv_complete.
Qed.

End ReFacts.

Unset Implicit Arguments.

(** ** The classifier *)

Lemma first_match_none rules uri :
  (forall p g, In (p, g) rules -> re_match p uri = false) ->
  first_match rules uri = None.
Proof.
  induction rules as [|[p g] rest IH]; simpl; intro H; [reflexivity|].
  rewrite (H p g) by auto. apply IH. intros q h Hin. apply (H q h). auto.
Qed.

Lemma first_match_earliest rules uri : forall i p g,
  nth_error rules i = Some (p, g) ->
  re_match p uri = true ->
  (forall j q h, j < i -> nth_error rules j = Some (q, h) -> re_match q uri = false) ->
  first_match rules uri = Some g.
Proof.
  induction rules as [|[q h] rest IH]; intros i p g Hi Hp Hbefore.
  - destruct i; discriminate.
  - destruct i as [|i]; simpl in *.
    + inversion Hi; subst. rewrite Hp. reflexivity.
    + rewrite (Hbefore 0 q h) by (simpl; auto; lia).
      apply (@IH i p g); auto.
      intros j q' h' Hj Hn. apply (Hbefore (S j) q' h'); [lia | exact Hn].
Qed.

Lemma groups_for_uri_classify cfg uri :
  groups_for_uri cfg uri = option_map (fun g => [PStr g]) (classify cfg uri).
Proof.
  unfold groups_for_uri, classify, rule_table, first_match.
  destruct (re_match core_pattern uri); [reflexivity|].
  destruct (re_match variation_pattern uri); [reflexivity|].
  destruct (re_match funcgen_pattern uri); [reflexivity|].
  destruct (re_match compara_pattern uri); reflexivity.
Qed.

(** C5. For every identifier, [groups_for_uri] is the first-match evaluation
    of the rule table in the order core-like, variation-like,
    functional-genomics-like, comparative-genomics-like: it returns the group
    of the earliest rule that matches (whatever later rules match too), and
    nothing when no rule matches. *)
Theorem groups_for_uri_first_matching_rule (cfg : config) (uri : string) :
  groups_for_uri cfg uri = option_map (fun g => [PStr g]) (classify cfg uri)
  /\ (forall i p g,
        nth_error (rule_table cfg) i = Some (p, g) ->
        re_match p uri = true ->
        (forall j q h, j < i -> nth_error (rule_table cfg) j = Some (q, h) ->
                       re_match q uri = false) ->
        groups_for_uri cfg uri = Some [PStr g])
  /\ ((forall p g, In (p, g) (rule_table cfg) -> re_match p uri = false) ->
      groups_for_uri cfg uri = None).
Proof.
  split; [apply groups_for_uri_classify|]. split.
  - intros i p g Hi Hp Hbefore. rewrite groups_for_uri_classify. unfold classify.
    rewrite (@first_match_earliest _ _ i p g Hi Hp Hbefore). reflexivity.
  - intro H. rewrite groups_for_uri_classify. unfold classify.
    rewrite (@first_match_none _ _ H). reflexivity.
Qed.

(** An identifier that matches both the functional-genomics and the
    comparative-genomics rule gets the functional-genomics group. *)
Lemma groups_for_uri_first_matching_rule_witness :
  re_match funcgen_pattern "mysql://h/mus_funcgen_9_mus_compara_2" = true
  /\ re_match compara_pattern "mysql://h/mus_funcgen_9_mus_compara_2" = true
  /\ groups_for_uri Demo.cfg "mysql://h/mus_funcgen_9_mus_compara_2"
     = Some [PStr "FuncgenRelease"].
Proof.
  split; [vm_compute; reflexivity|]. split; [vm_compute; reflexivity|].
  apply (proj1 (proj2 (groups_for_uri_first_matching_rule
                         Demo.cfg "mysql://h/mus_funcgen_9_mus_compara_2"))
           2 funcgen_pattern "FuncgenRelease").
  - reflexivity.
  - vm_compute; reflexivity.
  - intros j q h Hj Hn.
    destruct j as [|[|j]]; simpl in Hn; inversion Hn; subst;
      [vm_compute; reflexivity | vm_compute; reflexivity | lia].
Defined.

(** C10. For every identifier [groups_for_uri] returns nothing or a list of
    exactly one group, never an empty or a longer list. *)
Theorem groups_for_uri_none_or_singleton (cfg : config) (uri : string) :
  groups_for_uri cfg uri = None
  \/ exists g, groups_for_uri cfg uri = Some [g].
Proof.
  unfold groups_for_uri.
  destruct (re_match core_pattern uri); [right; eexists; reflexivity|].
  destruct (re_match variation_pattern uri); [right; eexists; reflexivity|].
  destruct (re_match funcgen_pattern uri); [right; eexists; reflexivity|].
  destruct (re_match compara_pattern uri); [right; eexists; reflexivity|].
  left; reflexivity.
Qed.

(** ** Dicts and payloads *)

Lemma dict_get_set_same k v d : dict_get k (dict_set k v d) = Some v.
Proof.
  induction d as [|[k' v'] d IH]; simpl.
  - rewrite String.eqb_refl. reflexivity.
  - destruct (String.eqb k k') eqn:E; simpl; rewrite E; auto.
Qed.

Lemma dict_get_set_other k k' v d :
  String.eqb k' k = false -> dict_get k' (dict_set k v d) = dict_get k' d.
Proof.
  intro Hne. induction d as [|[k0 v0] d IH]; simpl.
  - rewrite Hne. reflexivity.
  - destruct (String.eqb k k0) eqn:E; simpl.
    + apply String.eqb_eq in E; subst. rewrite Hne. reflexivity.
    + rewrite IH. reflexivity.
Qed.

Lemma still_running_eval p w :
  still_running p w
  = (match py_index p "status" with
     | Return _ => Return (in_progress p)
     | Raise e => Raise e
     end, w).
Proof.
  unfold still_running, or_else, status_is, py_getitem, bind, ret, in_progress, reports.
  destruct (py_index p "status") as [v|e]; [|reflexivity].
  destruct (py_eq_str v "incomplete"); [reflexivity|].
  destruct (py_eq_str v "running"); reflexivity.
Qed.

Lemma status_is_eval p lit w :
  status_is p lit w
  = (match py_index p "status" with
     | Return _ => Return (reports p lit)
     | Raise e => Raise e
     end, w).
Proof.
  unfold status_is, py_getitem, bind, ret, reports.
  destruct (py_index p "status"); reflexivity.
Qed.

Lemma reports_readable p lit :
  reports p lit = true -> py_index p "status" = Return (PStr lit).
Proof.
  unfold reports. destruct (py_index p "status") as [v|e]; [|discriminate].
  destruct v; simpl; try discriminate.
  intro H. apply String.eqb_eq in H. subst. reflexivity.
Qed.

Lemma reports_exclusive p a b :
  reports p a = true -> String.eqb a b = false -> reports p b = false.
Proof.
  intros Ha Hab. apply reports_readable in Ha. unfold reports. rewrite Ha.
  exact Hab.
Qed.

Lemma in_progress_readable p :
  in_progress p = true -> exists v, py_index p "status" = Return v.
Proof.
  unfold in_progress, reports.
  destruct (py_index p "status") as [v|e]; [eauto|discriminate].
Qed.

Lemma finished_not_in_progress p lit :
  reports p lit = true ->
  String.eqb lit "incomplete" = false ->
  String.eqb lit "running" = false ->
  String.eqb lit "submitted" = false ->
  in_progress p = false.
Proof.
  intros H H1 H2 H3. unfold in_progress.
  rewrite (reports_exclusive _ _ _ H H1), (reports_exclusive _ _ _ H H2),
    (reports_exclusive _ _ _ H H3).
  reflexivity.
Qed.

(** ** Single task executions *)

(** Unfolds the module's functions down to the state they thread. *)
Ltac run_py :=
  cbv [run_task process_checked_db process_copied_db process_db_metadata
       submit_copy submit_hc submit_metadata_update handover_database
       check_db get_tgt_uri
       hc_client_submit_job hc_client_retrieve_job
       db_copy_client_submit_job db_copy_client_retrieve_job
       send_email delay self_retry uuid
       getitem setitem contains snapshot py_getitem add_lit lit_add re_subject
       lift_reply emit enqueue calls bind ret raise negb
       task_spec nth_error heap queue trace writes heap_update].

Section Steps.

Variable env : Env.
Variable cfg : config.

(** The validation job has not finished: the check goes back to the
    broker. *)
Lemma checked_in_progress id d w s p :
  dict_get "src_uri" d = Some (PStr s) ->
  hc_retrieve_job env (count is_hc_retrieve (trace w)) (hc_uri cfg) id = Ok p ->
  in_progress p = true ->
  run_task env cfg (ProcessCheckedDb id d) w
  = (Raise Retry,
     {| heap := [d]; queue := (queue w ++ [ProcessCheckedDb id d])%list;
        trace := EvRetry (ProcessCheckedDb id d)
                 :: EvHcRetrieve (hc_uri cfg) id :: trace w;
        writes := writes w |}).
Proof.
  intros Hs Hr Hp. destruct w as [h q tr wr]; simpl in *.
  destruct (in_progress_readable _ Hp) as [v Hv].
  run_py. rewrite Hs, Hr, still_running_eval, Hv, Hp. reflexivity.
Qed.

(** The validation job ran and found problems. *)
Lemma checked_found_problems id d w s c p :
  dict_get "src_uri" d = Some (PStr s) ->
  dict_get "contact" d = Some c ->
  hc_retrieve_job env (count is_hc_retrieve (trace w)) (hc_uri cfg) id = Ok p ->
  reports p "succeeded" = true ->
  failed_output p = true ->
  run_task env cfg (ProcessCheckedDb id d) w
  = (Return PNone,
     {| heap := [d]; queue := queue w;
        trace :=
          EvEmail c "HC ran but failed"
            (nl ++ "Running healthchecks vs " ++ s
                ++ " completed but found failures." ++ nl
                ++ "Please see " ++ (hc_web_uri cfg ++ py_str env id) ++ nl)
            (smtp_server cfg)
          :: EvHcRetrieve (hc_uri cfg) id :: trace w;
        writes := writes w |}).
Proof.
  intros Hs Hc Hr Hp Ho. destruct w as [h q tr wr]; simpl in *.
  pose proof (reports_readable _ _ Hp) as Hv.
  assert (Hrun : in_progress p = false)
    by (apply (finished_not_in_progress _ _ Hp); reflexivity).
  assert (Hf : reports p "failed" = false)
    by (apply (reports_exclusive _ _ _ Hp); reflexivity).
  unfold failed_output in Ho.
  destruct (py_index p "output") as [o|] eqn:Eo; [|discriminate].
  destruct (py_index o "status") as [os|] eqn:Eos; [|discriminate].
  run_py.
  rewrite Hs, Hr, still_running_eval, Hv, Hrun, status_is_eval, Hv, Hf, Eo, Eos, Ho.
  rewrite Hs, Hc. reflexivity.
Qed.

(** [submit_copy] on a request that has a source and a target. *)
Lemma submit_copy_eval d q tr wr src tgt :
  dict_get "src_uri" d = Some src ->
  dict_get "tgt_uri" d = Some tgt ->
  submit_copy env cfg 0 {| heap := [d]; queue := q; trace := tr; writes := wr |}
  = match copy_submit_job env (count is_copy_submit tr) (copy_args cfg src tgt) with
    | Ok cid =>
        let d' := dict_set "copy_job_id" cid d in
        (Return (fresh_task_id env (count is_delay tr)),
         {| heap := [d']; queue := (q ++ [ProcessCopiedDb cid d'])%list;
            trace := EvDelay (ProcessCopiedDb cid d')
                     :: EvCopySubmit (copy_args cfg src tgt) :: tr;
            writes := ("copy_job_id", cid) :: wr |})
    | Fails e =>
        (Raise (External e),
         {| heap := [d]; queue := q;
            trace := EvCopySubmit (copy_args cfg src tgt) :: tr; writes := wr |})
    end.
Proof.
  intros Hs Ht. run_py. rewrite Hs, Ht. fold (copy_args cfg src tgt).
  destruct (copy_submit_job env (count is_copy_submit tr) (copy_args cfg src tgt));
    reflexivity.
Qed.

(** The validation job succeeded with a clean output: the check hands over
    to [submit_copy] and returns [None] if that returns. *)
Lemma checked_clean id d w s p :
  dict_get "src_uri" d = Some (PStr s) ->
  hc_retrieve_job env (count is_hc_retrieve (trace w)) (hc_uri cfg) id = Ok p ->
  reports p "succeeded" = true ->
  clean_output p = true ->
  run_task env cfg (ProcessCheckedDb id d) w
  = match
      submit_copy env cfg 0
        {| heap := [d]; queue := queue w;
           trace := EvHcRetrieve (hc_uri cfg) id :: trace w; writes := writes w |}
    with
    | (Return _, w') => (Return PNone, w')
    | (Raise e, w') => (Raise e, w')
    end.
Proof.
  intros Hs Hr Hp Ho. destruct w as [h q tr wr]; simpl in *.
  pose proof (reports_readable _ _ Hp) as Hv.
  assert (Hrun : in_progress p = false)
    by (apply (finished_not_in_progress _ _ Hp); reflexivity).
  assert (Hf : reports p "failed" = false)
    by (apply (reports_exclusive _ _ _ Hp); reflexivity).
  unfold clean_output in Ho.
  destruct (py_index p "output") as [o|] eqn:Eo; [|discriminate].
  destruct (py_index o "status") as [os|] eqn:Eos; [|discriminate].
  apply negb_true_iff in Ho.
  cbv [run_task process_checked_db hc_client_retrieve_job
       getitem snapshot py_getitem lit_add lift_reply emit calls bind ret raise
       task_spec nth_error heap queue trace writes].
  rewrite Hs, Hr, still_running_eval, Hv, Hrun, status_is_eval, Hv, Hf, Eo, Eos, Ho.
  destruct (submit_copy env cfg 0 _) as [[r|e] w']; reflexivity.
Qed.

(** The copy job has not finished. *)
Lemma copied_in_progress id d w p :
  copy_retrieve_job env (count is_copy_retrieve (trace w)) (copy_uri cfg) id = Ok p ->
  in_progress p = true ->
  run_task env cfg (ProcessCopiedDb id d) w
  = (Raise Retry,
     {| heap := [d]; queue := (queue w ++ [ProcessCopiedDb id d])%list;
        trace := EvRetry (ProcessCopiedDb id d)
                 :: EvCopyRetrieve (copy_uri cfg) id :: trace w;
        writes := writes w |}).
Proof.
  intros Hr Hp. destruct w as [h q tr wr]; simpl in *.
  destruct (in_progress_readable _ Hp) as [v Hv].
  run_py. rewrite Hr, still_running_eval, Hv, Hp. reflexivity.
Qed.

(** The copy job failed. *)
Lemma copied_failed id d w src tgt c p :
  dict_get "src_uri" d = Some src ->
  dict_get "tgt_uri" d = Some tgt ->
  dict_get "contact" d = Some c ->
  copy_retrieve_job env (count is_copy_retrieve (trace w)) (copy_uri cfg) id = Ok p ->
  reports p "failed" = true ->
  run_task env cfg (ProcessCopiedDb id d) w
  = (Return PNone,
     {| heap := [d]; queue := queue w;
        trace :=
          EvEmail c "Database copy failed"
            (nl ++ "Copying " ++ py_str env src ++ " to " ++ py_str env tgt
                ++ " failed." ++ nl
                ++ "Please see " ++ (copy_web_uri cfg ++ py_str env id) ++ nl)
            (smtp_server cfg)
          :: EvCopyRetrieve (copy_uri cfg) id :: trace w;
        writes := writes w |}).
Proof.
  intros Hs Ht Hc Hr Hp. destruct w as [h q tr wr]; simpl in *.
  pose proof (reports_readable _ _ Hp) as Hv.
  assert (Hrun : in_progress p = false)
    by (apply (finished_not_in_progress _ _ Hp); reflexivity).
  run_py.
  rewrite Hr, still_running_eval, Hv, Hrun, status_is_eval, Hv, Hp, Hs, Ht, Hc.
  reflexivity.
Qed.

(** The copy job is over and did not fail: the metadata task is queued
    with the placeholder id and the request as it came. *)
Lemma copied_done id d w tgt p v :
  dict_get "tgt_uri" d = Some tgt ->
  copy_retrieve_job env (count is_copy_retrieve (trace w)) (copy_uri cfg) id = Ok p ->
  py_index p "status" = Return v ->
  in_progress p = false ->
  reports p "failed" = false ->
  run_task env cfg (ProcessCopiedDb id d) w
  = (Return (fresh_task_id env (count is_delay (trace w))),
     {| heap := [d];
        queue := (queue w ++ [ProcessDbMetadata (PStr "metaplaceholder_db_id") d])%list;
        trace := EvDelay (ProcessDbMetadata (PStr "metaplaceholder_db_id") d)
                 :: EvCopyRetrieve (copy_uri cfg) id :: trace w;
        writes := writes w |}).
Proof.
  intros Ht Hr Hv Hrun Hf. destruct w as [h q tr wr]; simpl in *.
  run_py.
  rewrite Hr, still_running_eval, Hv, Hrun, status_is_eval, Hv, Hf, Ht.
  reflexivity.
Qed.

Lemma metadata_done id d w :
  run_task env cfg (ProcessDbMetadata id d) w
  = (Return PNone,
     {| heap := [d]; queue := queue w; trace := trace w; writes := writes w |}).
Proof. reflexivity. Qed.

(** The worker on a broker that holds a message. *)
Lemma worker_step_cons w t q :
  queue w = t :: q ->
  worker_step env cfg w
  = match
      run_task env cfg t
        {| heap := heap w; queue := q; trace := trace w; writes := writes w |}
    with
    | (Return _, w') => w'
    | (Raise Retry, w') => w'
    | (Raise e, w') =>
        {| heap := heap w'; queue := queue w';
           trace := EvFailure t e :: trace w'; writes := writes w' |}
    end.
Proof. intro H. unfold worker_step. rewrite H. reflexivity. Qed.

Lemma worker_step_idle w : queue w = [] -> worker_step env cfg w = w.
Proof. intro H. unfold worker_step. rewrite H. reflexivity. Qed.

Lemma run_idle n : forall w, queue w = [] -> run env cfg n w = w.
Proof.
  induction n as [|n IH]; intros w H; simpl; [reflexivity|].
  rewrite worker_step_idle by exact H. apply IH, H.
Qed.

Lemma run_add n m : forall w, run env cfg (n + m) w = run env cfg m (run env cfg n w).
Proof.
  induction n as [|n IH]; intro w; simpl; [reflexivity|]. apply IH.
Qed.

End Steps.

(** ** Terminal outcomes of the awaiting states *)

(** C6. When the validation job reports succeeded and its nested output
    status is failed, the execution of [process_checked_db] sends exactly
    one 'HC ran but failed' message to the contact, submits no copy job,
    queues nothing, and ends normally. *)
Theorem validation_problems_notified_once
  (env : Env) (cfg : config) (w : world) (id : pyval) (d : dict) (q : list task)
  (s : string) (c p : pyval) :
  queue w = ProcessCheckedDb id d :: q ->
  dict_get "src_uri" d = Some (PStr s) ->
  dict_get "contact" d = Some c ->
  hc_retrieve_job env (count is_hc_retrieve (trace w)) (hc_uri cfg) id = Ok p ->
  reports p "succeeded" = true ->
  failed_output p = true ->
  let w' := worker_step env cfg w in
  trace w'
  = EvEmail c "HC ran but failed"
      (nl ++ "Running healthchecks vs " ++ s ++ " completed but found failures." ++ nl
          ++ "Please see " ++ (hc_web_uri cfg ++ py_str env id) ++ nl)
      (smtp_server cfg)
    :: EvHcRetrieve (hc_uri cfg) id :: trace w
  /\ queue w' = q
  /\ count is_email (trace w') = S (count is_email (trace w))
  /\ count (is_email_with "HC ran but failed") (trace w')
     = S (count (is_email_with "HC ran but failed") (trace w))
  /\ count is_copy_submit (trace w') = count is_copy_submit (trace w)
  /\ count is_retry (trace w') = count is_retry (trace w)
  /\ count is_failure (trace w') = count is_failure (trace w).
Proof.
  intros Hq Hs Hc Hr Hp Ho w'. subst w'.
  rewrite (worker_step_cons env cfg w _ _ Hq).
  rewrite (checked_found_problems env cfg id d
             {| heap := heap w; queue := q; trace := trace w; writes := writes w |}
             s c p Hs Hc Hr Hp Ho).
  simpl. repeat split; reflexivity.
Qed.

Lemma validation_problems_notified_once_witness :
  let w' :=
    worker_step (Demo.answering (Demo.status_with_output "succeeded" "failed")) Demo.cfg
      (Demo.waiting [ProcessCheckedDb (PInt 7) (Demo.staged Demo.core_db)]) in
  queue w' = []
  /\ count is_email (trace w') = 1
  /\ count (is_email_with "HC ran but failed") (trace w') = 1
  /\ count is_copy_submit (trace w') = 0.
Proof.
  destruct
    (validation_problems_notified_once
       (Demo.answering (Demo.status_with_output "succeeded" "failed")) Demo.cfg
       (Demo.waiting [ProcessCheckedDb (PInt 7) (Demo.staged Demo.core_db)])
       (PInt 7) (Demo.staged Demo.core_db) [] Demo.core_db (PStr "dba@example.org")
       (Demo.status_with_output "succeeded" "failed")
       eq_refl eq_refl eq_refl eq_refl eq_refl eq_refl)
    as (_ & Hq & He & Hs & Hc & _).
  repeat split; assumption.
Defined.

(** C7. When the copy job reports failed, the execution of
    [process_copied_db] sends exactly one 'Database copy failed' message to
    the contact, whose body ends with the job's page (the copy web address
    followed by the job id), submits no metadata update, queues nothing, and
    ends normally. *)
Theorem copy_failure_notified_once
  (env : Env) (cfg : config) (w : world) (id : pyval) (d : dict) (q : list task)
  (src tgt c p : pyval) :
  queue w = ProcessCopiedDb id d :: q ->
  dict_get "src_uri" d = Some src ->
  dict_get "tgt_uri" d = Some tgt ->
  dict_get "contact" d = Some c ->
  copy_retrieve_job env (count is_copy_retrieve (trace w)) (copy_uri cfg) id = Ok p ->
  reports p "failed" = true ->
  let w' := worker_step env cfg w in
  trace w'
  = EvEmail c "Database copy failed"
      (nl ++ "Copying " ++ py_str env src ++ " to " ++ py_str env tgt ++ " failed." ++ nl
          ++ "Please see " ++ (copy_web_uri cfg ++ py_str env id) ++ nl)
      (smtp_server cfg)
    :: EvCopyRetrieve (copy_uri cfg) id :: trace w
  /\ queue w' = q
  /\ count is_email (trace w') = S (count is_email (trace w))
  /\ count (is_email_with "Database copy failed") (trace w')
     = S (count (is_email_with "Database copy failed") (trace w))
  /\ count is_delay (trace w') = count is_delay (trace w)
  /\ count is_retry (trace w') = count is_retry (trace w)
  /\ count is_failure (trace w') = count is_failure (trace w).
Proof.
  intros Hq Hs Ht Hc Hr Hp w'. subst w'.
  rewrite (worker_step_cons env cfg w _ _ Hq).
  rewrite (copied_failed env cfg id d
             {| heap := heap w; queue := q; trace := trace w; writes := writes w |}
             src tgt c p Hs Ht Hc Hr Hp).
  simpl. repeat split; reflexivity.
Qed.

Lemma copy_failure_notified_once_witness :
  let w' :=
    worker_step (Demo.answering (Demo.status "failed")) Demo.cfg
      (Demo.waiting [ProcessCopiedDb (PInt 9) (Demo.staged Demo.plain_db)]) in
  queue w' = []
  /\ count is_email (trace w') = 1
  /\ count (is_email_with "Database copy failed") (trace w') = 1
  /\ count is_delay (trace w') = 0.
Proof.
  destruct
    (copy_failure_notified_once
       (Demo.answering (Demo.status "failed")) Demo.cfg
       (Demo.waiting [ProcessCopiedDb (PInt 9) (Demo.staged Demo.plain_db)])
       (PInt 9) (Demo.staged Demo.plain_db) [] (PStr Demo.plain_db)
       (PStr "mysql://staging/db") (PStr "dba@example.org") (Demo.status "failed")
       eq_refl eq_refl eq_refl eq_refl eq_refl eq_refl)
    as (_ & Hq & He & Hs & Hd & _).
  repeat split; assumption.
Defined.

(** ** The metadata stage *)

(** C3, as the code has it. When the copy job reports succeeded,
    [process_copied_db] takes the placeholder id that
    [submit_metadata_update] returns without calling any service, and queues
    [process_db_metadata] with that id and the request as it came: no item of
    the request is assigned. *)
Theorem copy_success_queues_metadata_task
  (env : Env) (cfg : config) (w : world) (id : pyval) (d : dict) (q : list task)
  (tgt p : pyval) :
  queue w = ProcessCopiedDb id d :: q ->
  dict_get "tgt_uri" d = Some tgt ->
  copy_retrieve_job env (count is_copy_retrieve (trace w)) (copy_uri cfg) id = Ok p ->
  reports p "succeeded" = true ->
  worker_step env cfg w
  = {| heap := [d];
       queue := (q ++ [ProcessDbMetadata (PStr "metaplaceholder_db_id") d])%list;
       trace := EvDelay (ProcessDbMetadata (PStr "metaplaceholder_db_id") d)
                :: EvCopyRetrieve (copy_uri cfg) id :: trace w;
       writes := writes w |}.
Proof.
  intros Hq Ht Hr Hp.
  rewrite (worker_step_cons env cfg w _ _ Hq).
  rewrite (copied_done env cfg id d
             {| heap := heap w; queue := q; trace := trace w; writes := writes w |}
             tgt p (PStr "succeeded") Ht Hr).
  - reflexivity.
  - apply reports_readable, Hp.
  - apply (finished_not_in_progress _ _ Hp); reflexivity.
  - apply (reports_exclusive _ _ _ Hp); reflexivity.
Qed.

Lemma copy_success_queues_metadata_task_witness :
  worker_step (Demo.answering (Demo.status "succeeded")) Demo.cfg
    (Demo.waiting [ProcessCopiedDb (PInt 9) (Demo.staged Demo.plain_db)])
  = {| heap := [Demo.staged Demo.plain_db];
       queue := [ProcessDbMetadata (PStr "metaplaceholder_db_id")
                   (Demo.staged Demo.plain_db)];
       trace := [EvDelay (ProcessDbMetadata (PStr "metaplaceholder_db_id")
                            (Demo.staged Demo.plain_db));
                 EvCopyRetrieve "http://copy/" (PInt 9)];
       writes := [] |}.
Proof.
  exact
    (copy_success_queues_metadata_task
       (Demo.answering (Demo.status "succeeded")) Demo.cfg
       (Demo.waiting [ProcessCopiedDb (PInt 9) (Demo.staged Demo.plain_db)])
       (PInt 9) (Demo.staged Demo.plain_db) [] (PStr "mysql://staging/db")
       (Demo.status "succeeded") eq_refl eq_refl eq_refl eq_refl).
Defined.

(** C3 as stated fails: after the copy succeeded no service has been asked
    to update metadata (the only events are the status query and the queued
    task), no item of the request has been assigned, and the request that
    travels on holds the metadata job id under no key. *)
Lemma metadata_job_id_not_recorded :
  let w' :=
    worker_step (Demo.answering (Demo.status "succeeded")) Demo.cfg
      (Demo.waiting [ProcessCopiedDb (PInt 9) (Demo.staged Demo.plain_db)]) in
  exists meta_job_id d,
    queue w' = [ProcessDbMetadata meta_job_id d]
    /\ d = Demo.staged Demo.plain_db
    /\ heap w' = [d]
    /\ writes w' = []
    /\ (forall k, dict_get k d <> Some meta_job_id)
    /\ history w' = [EvCopyRetrieve "http://copy/" (PInt 9);
                     EvDelay (ProcessDbMetadata meta_job_id d)].
Proof.
  exists (PStr "metaplaceholder_db_id"), (Demo.staged Demo.plain_db).
  repeat split; try reflexivity.
  intros k H. cbn in H.
  repeat match type of H with
         | (if ?b then _ else _) = _ => destruct b; try discriminate
         end.
Qed.

(** ** Failures of the status query *)

Lemma py_index_raises p k e :
  py_index p k = Raise e -> e = TypeError \/ e = KeyError k.
Proof.
  destruct p; simpl; try (intro H; inversion H; auto; fail).
  destruct (dict_get k d); intro H; inversion H; auto.
Qed.

(** Splits on what the request holds, on what a payload says and on what a
    service answers, using what is already known. *)
Ltac crunch_step :=
  match goal with
  | |- context [still_running ?p ?w] => rewrite (still_running_eval p w)
  | |- context [status_is ?p ?l ?w] => rewrite (status_is_eval p l w)
  | |- context [dict_get ?k (dict_set ?k _ _)] => rewrite dict_get_set_same
  | |- context [dict_get _ (dict_set _ _ _)] =>
      rewrite dict_get_set_other by reflexivity
  | H : dict_get ?k ?d = _ |- context [dict_get ?k ?d] => rewrite H
  | H : py_index ?p ?k = _ |- context [py_index ?p ?k] => rewrite H
  | H : reports ?p ?k = _ |- context [reports ?p ?k] => rewrite H
  | H : groups_for_uri ?c ?u = _ |- context [groups_for_uri ?c ?u] => rewrite H
  | |- context [if reports ?p ?l then _ else _] => destruct (reports p l) eqn:?
  | |- context [if in_progress ?p then _ else _] => destruct (in_progress p) eqn:?
  | |- context [match py_index ?a ?b with _ => _ end] => destruct (py_index a b) eqn:?
  | |- context [match dict_get ?a ?b with _ => _ end] => destruct (dict_get a b) eqn:?
  | |- context [if py_eq_str ?a ?b then _ else _] => destruct (py_eq_str a b) eqn:?
  | |- context [if dict_mem ?k ?d then _ else _] => destruct (dict_mem k d) eqn:?
  | |- context [match database_exists ?e ?a with _ => _ end] =>
      destruct (database_exists e a) as [[|]|] eqn:?
  | |- context [match make_url_database ?e ?a with _ => _ end] =>
      destruct (make_url_database e a) eqn:?
  | |- context [match copy_submit_job ?e ?n ?a with _ => _ end] =>
      destruct (copy_submit_job e n a) eqn:?
  | |- context [match hc_submit_job ?e ?n ?a with _ => _ end] =>
      destruct (hc_submit_job e n a) eqn:?
  | |- context [match hc_retrieve_job ?e ?n ?u ?a with _ => _ end] =>
      destruct (hc_retrieve_job e n u a) eqn:?
  | |- context [match copy_retrieve_job ?e ?n ?u ?a with _ => _ end] =>
      destruct (copy_retrieve_job e n u a) eqn:?
  | |- context [match groups_for_uri ?c ?u with _ => _ end] =>
      destruct (groups_for_uri c u) eqn:?
  | H : py_index _ _ = Raise ?e |- context [match ?e with _ => _ end] =>
      destruct (py_index_raises _ _ _ H) as [-> | ->]
  | |- context [match ?v with PNone => _ | _ => _ end] => is_var v; destruct v
  end.

Ltac crunch := repeat (cbv beta iota; crunch_step).





(** ** Whole runs: invariants *)

Ltac leaf :=
  repeat split; simpl; rewrite ?forallb_app; simpl; rewrite ?andb_true_r;
  try assumption; try reflexivity; try lia.

Lemma skips_validation_step env cfg w :
  skips_validation w -> skips_validation (worker_step env cfg w).
Proof.
  destruct w as [h q tr wr]. unfold skips_validation, count, assignments. simpl.
  intros (Hq & H1 & H2 & H3).
  destruct q as [|t q]; [repeat split; assumption|].
  rewrite (worker_step_cons env cfg
             {| heap := h; queue := t :: q; trace := tr; writes := wr |} t q eq_refl).
  simpl in Hq. apply andb_true_iff in Hq as [Ht Hq].
  destruct t as [id d|id d|id d]; [discriminate| |].
  - run_py. crunch; leaf.
  - simpl. leaf.
Qed.

Lemma skips_validation_intake env cfg spec uri :
  dict_get "src_uri" spec = Some (PStr uri) ->
  groups_for_uri cfg uri = None ->
  skips_validation (snd (handover_database env cfg 0 (client spec))).
Proof.
  intros Hs Hg. unfold skips_validation, count, assignments, client.
  run_py. crunch; leaf.
Qed.

Lemma skips_validation_run env cfg n : forall w,
  skips_validation w -> skips_validation (run env cfg n w).
Proof.
  induction n as [|n IH]; intros w H; simpl; [exact H|].
  apply IH, skips_validation_step, H.
Qed.

Lemma stage_invariant_step env cfg w :
  stage_invariant w -> stage_invariant (worker_step env cfg w).
Proof.
  destruct w as [h q tr wr]. unfold stage_invariant, count, assignments. simpl.
  intros (H1 & H2 & H3 & H4 & Hq).
  destruct q as [|t q]; [repeat split; assumption|].
  rewrite (worker_step_cons env cfg
             {| heap := h; queue := t :: q; trace := tr; writes := wr |} t q eq_refl).
  destruct t as [id d|id d|id d]; (destruct q; [|contradiction]).
  - run_py. crunch; leaf.
  - run_py. crunch; leaf.
  - simpl. leaf.
Qed.

Lemma stage_invariant_intake env cfg spec :
  stage_invariant (snd (handover_database env cfg 0 (client spec))).
Proof.
  unfold stage_invariant, count, assignments, client.
  run_py. crunch; leaf.
Qed.

Lemma stage_invariant_run env cfg n : forall w,
  stage_invariant w -> stage_invariant (run env cfg n w).
Proof.
  induction n as [|n IH]; intros w H; simpl; [exact H|].
  apply IH, stage_invariant_step, H.
Qed.

(** The trace only grows: no count ever goes down. *)
Lemma count_step_monotone env cfg p w :
  count p (trace w) <= count p (trace (worker_step env cfg w)).
Proof.
  destruct w as [h q tr wr]. unfold count. simpl.
  destruct q as [|t q]; [rewrite worker_step_idle by reflexivity; simpl; lia|].
  rewrite (worker_step_cons env cfg
             {| heap := h; queue := t :: q; trace := tr; writes := wr |} t q eq_refl).
  destruct t as [id d|id d|id d].
  - run_py. crunch; simpl;
      repeat match goal with
             | |- context [if p ?e then _ else _] => destruct (p e)
             end; simpl; lia.
  - run_py. crunch; simpl;
      repeat match goal with
             | |- context [if p ?e then _ else _] => destruct (p e)
             end; simpl; lia.
  - simpl. lia.
Qed.

Lemma count_run_monotone env cfg p n : forall w,
  count p (trace w) <= count p (trace (run env cfg n w)).
Proof.
  induction n as [|n IH]; intro w; simpl; [lia|].
  pose proof (count_step_monotone env cfg p w).
  pose proof (IH (worker_step env cfg w)). lia.
Qed.

(** ** Resubmission *)

(** C4, as the code has it. In a run started by intake in which the
    substrate executes every queued step once, whatever the request and
    whatever the services answer, at most one validation job and at most one
    copy job are submitted, and each of the two job-id items of the request
    is assigned at most once. *)
Theorem jobs_submitted_once_without_redelivery
  (env : Env) (cfg : config) (spec : dict) (n : nat) :
  submitted_once (pipeline env cfg spec n).
Proof.
  unfold pipeline.
  pose proof (stage_invariant_run env cfg n _ (stage_invariant_intake env cfg spec))
    as (H1 & H2 & H3 & H4 & _).
  unfold submitted_once. repeat split; try assumption. lia.
Qed.

(** C4 as stated fails: the steps look at no recorded job id.  When the
    substrate delivers the validation check twice, each execution submits a
    copy job; and a request on which a copy job id is already recorded gets a
    second copy job all the same. *)
Lemma redelivered_step_resubmits :
  let env := Demo.answering (Demo.status_with_output "succeeded" "succeeded") in
  let check := ProcessCheckedDb (PInt 7) (Demo.staged Demo.core_db) in
  let recorded :=
    ProcessCheckedDb (PInt 7)
      (Demo.staged Demo.core_db ++ [("copy_job_id", PInt 9)])%list in
  (let w := run env Demo.cfg 2 (Demo.waiting [check; check]) in
   count is_copy_submit (trace w) = 2
   /\ assignments "copy_job_id" w = 2)
  /\ (let w := run env Demo.cfg 1 (Demo.waiting [recorded]) in
      dict_get "copy_job_id" (task_spec recorded) = Some (PInt 9)
      /\ count is_copy_submit (trace w) = 1
      /\ assignments "copy_job_id" w = 1).
Proof.
  repeat split; reflexivity.
Qed.

(** ** Intake *)

Lemma dict_mem_get k d :
  dict_mem k d = true -> exists v, dict_get k d = Some v.
Proof.
  unfold dict_mem. destruct (dict_get k d); [eauto|discriminate].
Qed.

Lemma dict_mem_none k d : dict_mem k d = false -> dict_get k d = None.
Proof.
  unfold dict_mem. destruct (dict_get k d); [discriminate|reflexivity].
Qed.

Section Intake.

Variable env : Env.
Variable cfg : config.
Variable spec : dict.
Variable uri : string.
Hypothesis Hpass : intake_passes env spec uri.

Lemma admitted_other k :
  String.eqb k "tgt_uri" = false ->
  String.eqb k "handover_token" = false ->
  dict_get k (admitted_spec env cfg spec uri) = dict_get k spec.
Proof.
  intros H1 H2. unfold admitted_spec.
  rewrite dict_get_set_other by exact H2.
  destruct (dict_mem "tgt_uri" spec); [reflexivity|].
  apply dict_get_set_other, H1.
Qed.

Lemma admitted_src :
  dict_get "src_uri" (admitted_spec env cfg spec uri) = Some (PStr uri).
Proof.
  rewrite admitted_other by reflexivity. apply Hpass.
Qed.

Lemma admitted_tgt :
  dict_get "tgt_uri" (admitted_spec env cfg spec uri)
  = Some (target_of env cfg spec uri).
Proof.
  unfold admitted_spec. rewrite dict_get_set_other by reflexivity.
  destruct (dict_mem "tgt_uri" spec) eqn:Em.
  - destruct (dict_mem_get _ _ Em) as [v Hv]. unfold target_of. rewrite Hv.
    reflexivity.
  - apply dict_get_set_same.
Qed.

(** Intake up to the classification. *)
Lemma intake_eval :
  handover_database env cfg 0 (client spec)
  = bind
      (match groups_for_uri cfg uri with
       | None => submit_copy env cfg 0
       | Some groups => submit_hc env cfg 0 groups
       end)
      (fun _ => getitem 0 "handover_token")
      (admitted env cfg spec uri).
Proof.
  destruct Hpass as (Hs & Ht & Hdb).
  unfold admitted, admitted_spec, intake_writes, target_of.
  destruct (dict_mem "tgt_uri" spec) eqn:Em.
  - cbv [handover_database check_db get_tgt_uri uuid getitem setitem contains
         snapshot add_lit re_subject lift_reply emit calls bind ret raise negb
         nth_error heap queue trace writes heap_update client].
    rewrite Em.
    repeat (cbv beta iota;
            first [ rewrite dict_get_set_other by reflexivity
                  | rewrite Hs | rewrite Hdb ]).
    reflexivity.
  - destruct Ht as [Ht | [db Hdbn]]; [discriminate|].
    rewrite (dict_mem_none _ _ Em), Hdbn.
    cbv [handover_database check_db get_tgt_uri uuid getitem setitem contains
         snapshot add_lit re_subject lift_reply emit calls bind ret raise negb
         nth_error heap queue trace writes heap_update client].
    rewrite Em.
    repeat (cbv beta iota;
            first [ rewrite dict_get_set_other by reflexivity
                  | rewrite Hs | rewrite Hdb | rewrite Hdbn ]).
    reflexivity.
Qed.

End Intake.

Section IntakeRuns.

Variable env : Env.
Variable cfg : config.
Variable spec : dict.
Variable uri : string.
Hypothesis Hpass : intake_passes env spec uri.

(** Intake of a source no rule matches. *)
Lemma intake_unclassified :
  groups_for_uri cfg uri = None ->
  pipeline env cfg spec 0
  = let a := admitted_spec env cfg spec uri in
    let args := copy_args cfg (PStr uri) (target_of env cfg spec uri) in
    match copy_submit_job env 0 args with
    | Ok cid =>
        let d := dict_set "copy_job_id" cid a in
        {| heap := [d]; queue := [ProcessCopiedDb cid d];
           trace := [EvDelay (ProcessCopiedDb cid d); EvCopySubmit args; EvUuid];
           writes := ("copy_job_id", cid) :: intake_writes env cfg spec uri |}
    | Fails e =>
        {| heap := [a]; queue := [];
           trace := [EvCopySubmit args; EvUuid];
           writes := intake_writes env cfg spec uri |}
    end.
Proof.
  intro Hg. unfold pipeline. simpl run.
  rewrite (intake_eval env cfg spec uri Hpass), Hg.
  unfold bind, admitted.
  rewrite (submit_copy_eval env cfg _ _ _ _ _ _
             (admitted_src env cfg spec uri Hpass)
             (admitted_tgt env cfg spec uri)).
  change (count is_copy_submit [EvUuid]) with 0.
  destruct (copy_submit_job env 0 _); [|reflexivity].
  cbv zeta. unfold getitem, snapshot, bind. simpl.
  rewrite dict_get_set_other by reflexivity.
  unfold admitted_spec. rewrite dict_get_set_same. reflexivity.
Qed.

(** Intake of a source some rule matches. *)
Lemma intake_classified groups c id :
  groups_for_uri cfg uri = Some groups ->
  dict_get "contact" spec = Some c ->
  hc_submit_job env 0 (hc_args cfg (PStr uri) groups) = Ok id ->
  pipeline env cfg spec 0
  = let d := dict_set "hc_job_id" id (admitted_spec env cfg spec uri) in
    {| heap := [d]; queue := [ProcessCheckedDb id d];
       trace := [EvEmail c "HC submitted" (uri ++ " has been submitted for checking")
                   (smtp_server cfg);
                 EvDelay (ProcessCheckedDb id d);
                 EvHcSubmit (hc_args cfg (PStr uri) groups);
                 EvUuid];
       writes := ("hc_job_id", id) :: intake_writes env cfg spec uri |}.
Proof.
  intros Hg Hc Hsub. unfold pipeline. simpl run.
  rewrite (intake_eval env cfg spec uri Hpass), Hg.
  pose proof (admitted_src env cfg spec uri Hpass) as Hs.
  assert (Hc' : dict_get "contact" (admitted_spec env cfg spec uri) = Some c)
    by (rewrite admitted_other by reflexivity; exact Hc).
  unfold admitted. run_py. rewrite Hs. fold (hc_args cfg (PStr uri) groups).
  change (count is_hc_submit [EvUuid]) with 0. rewrite Hsub.
  repeat (cbv beta iota;
          first [ rewrite dict_get_set_other by reflexivity
                | rewrite Hs | rewrite Hc' ]).
  unfold admitted_spec at 1. rewrite dict_get_set_same.
  reflexivity.
Qed.

End IntakeRuns.

(** ** Requests that need no validation *)

(** C8. When the source identifier of a request matches no classification
    rule, the validation stage is skipped for the whole run: after intake and
    any number of task executions no validation job has been submitted or
    queried, no validation check is queued and the validation job-id item has
    not been assigned.  When intake gets as far as classification (a target
    is given or derivable and the source database exists) it submits the copy
    job itself, as its first call to a job client. *)
Theorem unclassified_source_skips_validation
  (env : Env) (cfg : config) (spec : dict) (uri : string) :
  dict_get "src_uri" spec = Some (PStr uri) ->
  groups_for_uri cfg uri = None ->
  (forall n, skips_validation (pipeline env cfg spec n))
  /\ (intake_passes env spec uri ->
      let w := pipeline env cfg spec 0 in
      count is_copy_submit (trace w) = 1
      /\ exists rest,
           history w
           = EvUuid
             :: EvCopySubmit (copy_args cfg (PStr uri) (target_of env cfg spec uri))
             :: rest).
Proof.
  intros Hs Hg. split.
  - intro n. unfold pipeline.
    apply skips_validation_run, (skips_validation_intake env cfg spec uri Hs Hg).
  - intros Hpass w. subst w.
    rewrite (intake_unclassified env cfg spec uri Hpass Hg). cbv zeta.
    destruct (copy_submit_job env 0 _); (split; [reflexivity|]);
      unfold history; simpl; eexists; reflexivity.
Qed.

Lemma unclassified_source_skips_validation_witness :
  skips_validation (pipeline Demo.env Demo.cfg (Demo.request Demo.plain_db) 5)
  /\ count is_copy_submit
       (trace (pipeline Demo.env Demo.cfg (Demo.request Demo.plain_db) 0)) = 1.
Proof.
  assert (Hg : groups_for_uri Demo.cfg Demo.plain_db = None)
    by (vm_compute; reflexivity).
  destruct
    (unclassified_source_skips_validation
       Demo.env Demo.cfg (Demo.request Demo.plain_db) Demo.plain_db eq_refl Hg)
    as [Hall Hintake].
  split.
  - apply Hall.
  - apply Hintake. unfold intake_passes.
    split; [reflexivity|].
    split; [right; exists (PStr "db"); reflexivity | reflexivity].
Defined.

(** ** The copy stage of a run *)

Section CopyRun.

Variable env : Env.
Variable cfg : config.
Variable cid tgt : pyval.
Variable d : dict.
Variable n : nat.
Hypothesis Htgt : dict_get "tgt_uri" d = Some tgt.
Hypothesis Hpoll :
  forall k, k < n ->
    exists p, copy_retrieve_job env k (copy_uri cfg) cid = Ok p /\ in_progress p = true.
Hypothesis Hdone :
  exists p, copy_retrieve_job env n (copy_uri cfg) cid = Ok p
            /\ reports p "succeeded" = true.

Lemma copy_pending_step k w :
  copy_pending cid d k w -> k < n ->
  copy_pending cid d (S k) (worker_step env cfg w).
Proof.
  destruct w as [h q tr wr]. unfold copy_pending. simpl.
  intros (Hq & Hk & Hr & He & Hf) Hlt. subst q.
  destruct (Hpoll k Hlt) as (p & Hp & Hip). rewrite <- Hk in Hp.
  rewrite (worker_step_cons env cfg
             {| heap := h; queue := [ProcessCopiedDb cid d]; trace := tr;
                writes := wr |} _ [] eq_refl).
  cbn [heap queue trace writes].
  rewrite (copied_in_progress env cfg cid d
             {| heap := h; queue := []; trace := tr; writes := wr |} p Hp Hip).
  unfold count in *. simpl. repeat split; auto.
Qed.

Lemma copy_pending_done w :
  copy_pending cid d n w -> finished_silently n (run env cfg 2 w).
Proof.
  destruct w as [h q tr wr]. unfold copy_pending. simpl.
  intros (Hq & Hk & Hr & He & Hf). subst q.
  destruct Hdone as (p & Hp & Hs). rewrite <- Hk in Hp.
  cbn [run].
  rewrite (worker_step_cons env cfg
             {| heap := h; queue := [ProcessCopiedDb cid d]; trace := tr;
                writes := wr |} _ [] eq_refl).
  cbn [heap queue trace writes].
  rewrite (copied_done env cfg cid d
             {| heap := h; queue := []; trace := tr; writes := wr |}
             tgt p (PStr "succeeded") Htgt Hp (reports_readable _ _ Hs)).
  - unfold finished_silently, count in *. simpl. repeat split; auto.
  - apply (finished_not_in_progress _ _ Hs); reflexivity.
  - apply (reports_exclusive _ _ _ Hs); reflexivity.
Qed.

Lemma copy_pending_run j : forall k w,
  copy_pending cid d k w -> k + j = n ->
  finished_silently n (run env cfg (j + 2) w).
Proof.
  induction j as [|j IH]; intros k w H E.
  - replace k with n in H by lia. apply copy_pending_done, H.
  - change (S j + 2) with (S (j + 2)). simpl run.
    apply (IH (S k)); [|lia]. apply copy_pending_step; [exact H | lia].
Qed.

End CopyRun.

(** C9. When the source identifier of a request matches no classification
    rule, intake passes and submits the copy, and the copy job reports
    in progress [n] times and then succeeded, the run is over after [n + 2]
    task executions ([n] reschedules, the successful check, the metadata
    step) without a failure, and no message has been sent to the contact at
    any point of the run. *)
Theorem unvalidated_success_sends_no_message
  (env : Env) (cfg : config) (spec : dict) (uri : string) (cid : pyval) (n : nat) :
  intake_passes env spec uri ->
  groups_for_uri cfg uri = None ->
  copy_submit_job env 0 (copy_args cfg (PStr uri) (target_of env cfg spec uri)) = Ok cid ->
  (forall k, k < n ->
     exists p, copy_retrieve_job env k (copy_uri cfg) cid = Ok p
               /\ in_progress p = true) ->
  (exists p, copy_retrieve_job env n (copy_uri cfg) cid = Ok p
             /\ reports p "succeeded" = true) ->
  finished_silently n (pipeline env cfg spec (n + 2))
  /\ (forall m, pipeline env cfg spec (n + 2 + m) = pipeline env cfg spec (n + 2))
  /\ (forall m, count is_email (trace (pipeline env cfg spec m)) = 0).
Proof.
  intros Hpass Hg Hsub Hpoll Hdone.
  assert (Hfin : finished_silently n (pipeline env cfg spec (n + 2))).
  { change (pipeline env cfg spec (n + 2))
      with (run env cfg (n + 2) (pipeline env cfg spec 0)).
    rewrite (intake_unclassified env cfg spec uri Hpass Hg). cbv zeta.
    rewrite Hsub.
    apply (copy_pending_run env cfg cid (target_of env cfg spec uri)
             (dict_set "copy_job_id" cid (admitted_spec env cfg spec uri)) n)
      with (k := 0); auto.
    - rewrite dict_get_set_other by reflexivity. apply admitted_tgt.
    - unfold copy_pending. simpl. repeat split; reflexivity. }
  assert (Hstable : forall m,
             pipeline env cfg spec (n + 2 + m) = pipeline env cfg spec (n + 2)).
  { intro m. unfold pipeline. rewrite run_add. apply run_idle, Hfin. }
  split; [exact Hfin|]. split; [exact Hstable|].
  intro m.
  pose proof (count_run_monotone env cfg is_email (n + 2) (pipeline env cfg spec m))
    as Hle.
  unfold pipeline in Hle at 2. rewrite <- run_add in Hle.
  replace (m + (n + 2)) with (n + 2 + m) in Hle by lia.
  fold (pipeline env cfg spec (n + 2 + m)) in Hle.
  rewrite Hstable in Hle.
  destruct Hfin as (_ & _ & He & _). lia.
Qed.

Lemma unvalidated_success_sends_no_message_witness :
  finished_silently 1 (pipeline Demo.env Demo.cfg (Demo.request Demo.plain_db) 3)
  /\ count is_email
       (trace (pipeline Demo.env Demo.cfg (Demo.request Demo.plain_db) 2)) = 0.
Proof.
  assert (Hg : groups_for_uri Demo.cfg Demo.plain_db = None)
    by (vm_compute; reflexivity).
  assert (Hpass : intake_passes Demo.env (Demo.request Demo.plain_db) Demo.plain_db).
  { unfold intake_passes. split; [reflexivity|].
    split; [right; exists (PStr "db"); reflexivity | reflexivity]. }
  destruct
    (unvalidated_success_sends_no_message
       Demo.env Demo.cfg (Demo.request Demo.plain_db) Demo.plain_db (PInt 9) 1
       Hpass Hg eq_refl)
    as (Hfin & _ & Hquiet).
  - intros k Hk. destruct k as [|k]; [|lia].
    exists (Demo.status "running"). split; reflexivity.
  - exists (Demo.status "succeeded"). split; reflexivity.
  - split; [exact Hfin | apply Hquiet].
Defined.

(** ** The validation stage of a run *)

Lemma reports_in_progress p lit :
  reports p lit = true ->
  lit = "incomplete" \/ lit = "running" \/ lit = "submitted" ->
  in_progress p = true.
Proof.
  intros H [-> | [-> | ->]]; unfold in_progress; rewrite H;
    rewrite ?orb_true_r; reflexivity.
Qed.

Lemma worker_retries_check env cfg id d s p h tr wr :
  dict_get "src_uri" d = Some (PStr s) ->
  hc_retrieve_job env (count is_hc_retrieve tr) (hc_uri cfg) id = Ok p ->
  in_progress p = true ->
  worker_step env cfg
    {| heap := h; queue := [ProcessCheckedDb id d]; trace := tr; writes := wr |}
  = {| heap := [d]; queue := [ProcessCheckedDb id d];
       trace := EvRetry (ProcessCheckedDb id d) :: EvHcRetrieve (hc_uri cfg) id :: tr;
       writes := wr |}.
Proof.
  intros Hs Hr Hp.
  rewrite (worker_step_cons env cfg
             {| heap := h; queue := [ProcessCheckedDb id d]; trace := tr;
                writes := wr |} _ [] eq_refl).
  cbn [heap queue trace writes].
  rewrite (checked_in_progress env cfg id d
             {| heap := h; queue := []; trace := tr; writes := wr |} s p Hs Hr Hp).
  reflexivity.
Qed.

Lemma worker_passes_check env cfg id d s tgt p h tr wr :
  dict_get "src_uri" d = Some (PStr s) ->
  dict_get "tgt_uri" d = Some tgt ->
  hc_retrieve_job env (count is_hc_retrieve tr) (hc_uri cfg) id = Ok p ->
  reports p "succeeded" = true ->
  clean_output p = true ->
  exists rest,
    trace (worker_step env cfg
             {| heap := h; queue := [ProcessCheckedDb id d]; trace := tr;
                writes := wr |})
    = (rest ++ EvCopySubmit (copy_args cfg (PStr s) tgt)
            :: EvHcRetrieve (hc_uri cfg) id :: tr)%list
    /\ count is_retry rest = 0
    /\ count is_copy_submit rest = 0
    /\ count is_email rest = 0.
Proof.
  intros Hs Ht Hr Hp Ho.
  rewrite (worker_step_cons env cfg
             {| heap := h; queue := [ProcessCheckedDb id d]; trace := tr;
                writes := wr |} _ [] eq_refl).
  cbn [heap queue trace writes].
  rewrite (checked_clean env cfg id d
             {| heap := h; queue := []; trace := tr; writes := wr |} s p Hs Hr Hp Ho).
  cbn [heap queue trace writes].
  rewrite (submit_copy_eval env cfg d _ _ _ _ _ Hs Ht).
  destruct (copy_submit_job env _ _) as [cid|e]; cbv zeta.
  - eexists [_]. simpl. repeat split; reflexivity.
  - eexists [_]. simpl. repeat split; reflexivity.
Qed.

Lemma worker_retries_check_thrice env cfg id d s p0 p1 p2 h tr wr k :
  dict_get "src_uri" d = Some (PStr s) ->
  count is_hc_retrieve tr = k ->
  hc_retrieve_job env k (hc_uri cfg) id = Ok p0 -> in_progress p0 = true ->
  hc_retrieve_job env (S k) (hc_uri cfg) id = Ok p1 -> in_progress p1 = true ->
  hc_retrieve_job env (S (S k)) (hc_uri cfg) id = Ok p2 -> in_progress p2 = true ->
  run env cfg 3
    {| heap := h; queue := [ProcessCheckedDb id d]; trace := tr; writes := wr |}
  = {| heap := [d]; queue := [ProcessCheckedDb id d];
       trace := EvRetry (ProcessCheckedDb id d) :: EvHcRetrieve (hc_uri cfg) id
                :: EvRetry (ProcessCheckedDb id d) :: EvHcRetrieve (hc_uri cfg) id
                :: EvRetry (ProcessCheckedDb id d) :: EvHcRetrieve (hc_uri cfg) id
                :: tr;
       writes := wr |}.
Proof.
  intros Hs Hk H0 R0 H1 R1 H2 R2. subst k. cbn [run].
  rewrite (worker_retries_check env cfg id d s p0 h tr wr Hs H0 R0).
  rewrite (worker_retries_check env cfg id d s p1 [d]
             (EvRetry (ProcessCheckedDb id d) :: EvHcRetrieve (hc_uri cfg) id :: tr)
             wr Hs H1 R1).
  rewrite (worker_retries_check env cfg id d s p2 [d]
             (EvRetry (ProcessCheckedDb id d) :: EvHcRetrieve (hc_uri cfg) id
              :: EvRetry (ProcessCheckedDb id d) :: EvHcRetrieve (hc_uri cfg) id :: tr)
             wr Hs H2 R2).
  reflexivity.
Qed.

(** X1. A request whose source is classified, whose validation job is
    submitted and then reports submitted, running, incomplete and succeeded
    with a clean output on four successive executions of
    [process_checked_db]: the check is rescheduled exactly three times, then
    the fourth execution submits the copy job, once.  From intake to the end
    of that fourth execution exactly one message has been sent, the
    'HC submitted' one of the validation submission.  What the copy stage
    does afterwards is not part of the statement. *)
Theorem validated_after_three_reschedules
  (env : Env) (cfg : config) (spec : dict) (uri : string) (groups : list pyval)
  (c id p0 p1 p2 p3 : pyval) :
  intake_passes env spec uri ->
  groups_for_uri cfg uri = Some groups ->
  dict_get "contact" spec = Some c ->
  hc_submit_job env 0 (hc_args cfg (PStr uri) groups) = Ok id ->
  hc_retrieve_job env 0 (hc_uri cfg) id = Ok p0 -> reports p0 "submitted" = true ->
  hc_retrieve_job env 1 (hc_uri cfg) id = Ok p1 -> reports p1 "running" = true ->
  hc_retrieve_job env 2 (hc_uri cfg) id = Ok p2 -> reports p2 "incomplete" = true ->
  hc_retrieve_job env 3 (hc_uri cfg) id = Ok p3 -> reports p3 "succeeded" = true ->
  clean_output p3 = true ->
  let check := ProcessCheckedDb id (dict_set "hc_job_id" id (admitted_spec env cfg spec uri)) in
  let poll := EvHcRetrieve (hc_uri cfg) id in
  let w3 := pipeline env cfg spec 3 in
  let w4 := pipeline env cfg spec 4 in
  history w3
  = [EvUuid; EvHcSubmit (hc_args cfg (PStr uri) groups); EvDelay check;
     EvEmail c "HC submitted" (uri ++ " has been submitted for checking")
       (smtp_server cfg);
     poll; EvRetry check; poll; EvRetry check; poll; EvRetry check]
  /\ queue w3 = [check]
  /\ (exists rest,
        history w4
        = (history w3
             ++ poll
             :: EvCopySubmit (copy_args cfg (PStr uri) (target_of env cfg spec uri))
             :: rest)%list
        /\ count is_retry rest = 0
        /\ count is_copy_submit rest = 0
        /\ count is_email rest = 0)
  /\ count is_retry (trace w4) = 3
  /\ count is_copy_submit (trace w4) = 1
  /\ count (is_email_with "HC submitted") (trace w4) = 1
  /\ count is_email (trace w4) = 1.
Proof.
  intros Hpass Hg Hc Hsub H0 R0 H1 R1 H2 R2 H3 R3 Ho check poll w3 w4.
  subst check poll w3 w4.
  assert (Hs : dict_get "src_uri"
                 (dict_set "hc_job_id" id (admitted_spec env cfg spec uri))
               = Some (PStr uri)).
  { rewrite dict_get_set_other by reflexivity. apply admitted_src, Hpass. }
  assert (Ht : dict_get "tgt_uri"
                 (dict_set "hc_job_id" id (admitted_spec env cfg spec uri))
               = Some (target_of env cfg spec uri)).
  { rewrite dict_get_set_other by reflexivity. apply admitted_tgt. }
  change (pipeline env cfg spec 4)
    with (worker_step env cfg (pipeline env cfg spec 3)).
  change (pipeline env cfg spec 3)
    with (run env cfg 3 (pipeline env cfg spec 0)).
  rewrite (intake_classified env cfg spec uri Hpass groups c id Hg Hc Hsub).
  cbv zeta.
  match goal with
  | |- context [run env cfg 3
                  {| heap := ?h; queue := _; trace := ?tr; writes := ?wr |}] =>
      rewrite (worker_retries_check_thrice env cfg id _ uri p0 p1 p2 h tr wr 0
                 Hs eq_refl
                 H0 (reports_in_progress _ _ R0 (or_intror (or_intror eq_refl)))
                 H1 (reports_in_progress _ _ R1 (or_intror (or_introl eq_refl)))
                 H2 (reports_in_progress _ _ R2 (or_introl eq_refl)))
  end.
  match goal with
  | |- context [worker_step env cfg
                  {| heap := ?h; queue := _; trace := ?tr; writes := ?wr |}] =>
      destruct (worker_passes_check env cfg id _ uri (target_of env cfg spec uri) p3
                  h tr wr Hs Ht H3 R3 Ho) as (rest & Etr & Hr & Hcs & Hem)
  end.
  split; [reflexivity|]. split; [reflexivity|].
  assert (Hsub' : count (is_email_with "HC submitted") rest = 0).
  { clear - Hem. unfold count in *. induction rest as [|e rest IH]; [reflexivity|].
    simpl in *. destruct e; simpl in *; try (apply IH; assumption).
    discriminate. }
  split.
  { exists (rev rest). unfold history. rewrite Etr. cbn [trace].
    rewrite rev_app_distr. simpl. rewrite <- ?app_assoc. simpl.
    unfold count in *.
    repeat split; try reflexivity; rewrite filter_rev, length_rev; assumption. }
  unfold count in *. rewrite Etr. rewrite !filter_app, !length_app.
  rewrite Hr, Hcs, Hem, Hsub'. simpl. repeat split; reflexivity.
Qed.

Lemma validated_after_three_reschedules_witness :
  let w4 := pipeline Demo.env Demo.cfg (Demo.request Demo.core_db) 4 in
  count is_retry (trace w4) = 3
  /\ count is_copy_submit (trace w4) = 1
  /\ count (is_email_with "HC submitted") (trace w4) = 1
  /\ count is_email (trace w4) = 1.
Proof.
  assert (Hg : groups_for_uri Demo.cfg Demo.core_db = Some [PStr "CoreHandover"])
    by (vm_compute; reflexivity).
  assert (Hpass : intake_passes Demo.env (Demo.request Demo.core_db) Demo.core_db).
  { unfold intake_passes. split; [reflexivity|].
    split; [right; exists (PStr "db"); reflexivity | reflexivity]. }
  destruct
    (validated_after_three_reschedules
       Demo.env Demo.cfg (Demo.request Demo.core_db) Demo.core_db
       [PStr "CoreHandover"] (PStr "dba@example.org") (PInt 7)
       (Demo.status "submitted") (Demo.status "running") (Demo.status "incomplete")
       (Demo.status_with_output "succeeded" "succeeded")
       Hpass Hg eq_refl eq_refl eq_refl eq_refl eq_refl eq_refl eq_refl eq_refl
       eq_refl eq_refl eq_refl)
    as (_ & _ & _ & H).
  exact H.
Defined.

(** * Further properties of the pipeline *)

(** ** Intake *)

(** X2. When the source database does not exist, [handover_database] raises
    [ValueError] with the source followed by " does not exist": no job is
    submitted, nothing is queued and no message is sent.  The caller's dict
    has by then been given its target (when it had none) and its token. *)
Theorem missing_database_aborts_intake
  (env : Env) (cfg : config) (spec : dict) (uri : string) :
  dict_get "src_uri" spec = Some (PStr uri) ->
  (dict_mem "tgt_uri" spec = true
   \/ exists db, make_url_database env (PStr uri) = Ok db) ->
  database_exists env (PStr uri) = Ok false ->
  handover_database env cfg 0 (client spec)
  = (Raise (ValueError (uri ++ " does not exist")),
     {| heap := [admitted_spec env cfg spec uri]; queue := []; trace := [EvUuid];
        writes := intake_writes env cfg spec uri |}).
Proof.
  intros Hs Ht Hdb.
  unfold admitted_spec, intake_writes, target_of.
  destruct (dict_mem "tgt_uri" spec) eqn:Em.
  - run_py. unfold client. rewrite Em.
    repeat (cbv beta iota;
            first [ rewrite dict_get_set_other by reflexivity
                  | rewrite Hs | rewrite Hdb ]).
    reflexivity.
  - destruct Ht as [Ht | [db Hdbn]]; [discriminate|].
    rewrite (dict_mem_none _ _ Em), Hdbn.
    run_py. unfold client. rewrite Em.
    repeat (cbv beta iota;
            first [ rewrite dict_get_set_other by reflexivity
                  | rewrite Hs | rewrite Hdb | rewrite Hdbn ]).
    reflexivity.
Qed.

Lemma missing_database_aborts_intake_witness :
  let env :=
    {| repr := repr Demo.env; uuid1 := uuid1 Demo.env;
       database_exists := fun _ => Ok false;
       make_url_database := make_url_database Demo.env;
       hc_submit_job := hc_submit_job Demo.env;
       hc_retrieve_job := hc_retrieve_job Demo.env;
       copy_submit_job := copy_submit_job Demo.env;
       copy_retrieve_job := copy_retrieve_job Demo.env;
       fresh_task_id := fresh_task_id Demo.env |} in
  fst (handover_database env Demo.cfg 0 (client (Demo.request Demo.core_db)))
  = Raise (ValueError "mysql://ro@host/homo_sapiens_core_91_38 does not exist").
Proof.
  intro env.
  rewrite (missing_database_aborts_intake env Demo.cfg (Demo.request Demo.core_db)
             Demo.core_db eq_refl
             (or_intror (ex_intro _ (PStr "db") eq_refl)) eq_refl).
  reflexivity.
Defined.

(** X3. Whenever [handover_database] returns, it returns the token it
    generated, which the caller's dict holds under 'handover_token'; exactly
    one task has been queued, it carries the caller's dict as it then is, and
    that dict records the task's job id under 'hc_job_id' (validation) or
    'copy_job_id' (copy). *)
Theorem intake_returns_recorded_token
  (env : Env) (cfg : config) (spec : dict) (v : pyval) (w : world) :
  handover_database env cfg 0 (client spec) = (Return v, w) ->
  v = PStr (uuid1 env 0)
  /\ exists d t,
       heap w = [d] /\ queue w = [t] /\ task_spec t = d
       /\ dict_get "handover_token" d = Some v
       /\ ((exists id, t = ProcessCheckedDb id d /\ dict_get "hc_job_id" d = Some id)
           \/ (exists id, t = ProcessCopiedDb id d
                          /\ dict_get "copy_job_id" d = Some id)).
Proof.
  unfold client. run_py. crunch; intro H; inversion H; subst; clear H;
    (split; [reflexivity|]); do 2 eexists; simpl;
    (split; [reflexivity|]); (split; [reflexivity|]); (split; [reflexivity|]);
    (split; [rewrite ?dict_get_set_other by reflexivity; apply dict_get_set_same|]);
    first [ left; eexists; split; [reflexivity | apply dict_get_set_same]
          | right; eexists; split; [reflexivity | apply dict_get_set_same] ].
Qed.

Lemma intake_returns_recorded_token_witness :
  PStr "6f1c" = PStr (uuid1 Demo.env 0)
  /\ exists d t,
       heap (snd (handover_database Demo.env Demo.cfg 0
                    (client (Demo.request Demo.plain_db)))) = [d]
       /\ queue (snd (handover_database Demo.env Demo.cfg 0
                        (client (Demo.request Demo.plain_db)))) = [t]
       /\ task_spec t = d
       /\ dict_get "handover_token" d = Some (PStr "6f1c")
       /\ ((exists id, t = ProcessCheckedDb id d /\ dict_get "hc_job_id" d = Some id)
           \/ (exists id, t = ProcessCopiedDb id d
                          /\ dict_get "copy_job_id" d = Some id)).
Proof.
  apply (intake_returns_recorded_token Demo.env Demo.cfg (Demo.request Demo.plain_db)).
  vm_compute. reflexivity.
Defined.

(** X4. When intake gets as far as classification, whatever happens next
    the caller's dict holds under 'tgt_uri' the target it was given, or, if
    it was given none, the staging address followed by the name of the
    source database. *)
Theorem intake_keeps_or_derives_target
  (env : Env) (cfg : config) (spec : dict) (uri : string) :
  intake_passes env spec uri ->
  exists d,
    heap (snd (handover_database env cfg 0 (client spec))) = [d]
    /\ dict_get "tgt_uri" d
       = Some (match dict_get "tgt_uri" spec with
               | Some given => given
               | None =>
                   match make_url_database env (PStr uri) with
                   | Ok db => PStr (staging_uri cfg ++ py_str env db)
                   | Fails _ => PNone
                   end
               end).
Proof.
  intro Hpass. fold (target_of env cfg spec uri).
  rewrite (intake_eval env cfg spec uri Hpass).
  pose proof (admitted_src env cfg spec uri Hpass) as Hs.
  pose proof (admitted_tgt env cfg spec uri) as Ht.
  unfold admitted.
  destruct (groups_for_uri cfg uri) as [groups|]; run_py; crunch;
    eexists; (split; [reflexivity|]);
    rewrite ?dict_get_set_other by reflexivity; assumption.
Qed.

Lemma intake_keeps_or_derives_target_witness :
  exists d,
    heap (snd (handover_database Demo.env Demo.cfg 0
                 (client (Demo.request Demo.core_db)))) = [d]
    /\ dict_get "tgt_uri" d = Some (PStr "mysql://staging/db").
Proof.
  apply (intake_keeps_or_derives_target Demo.env Demo.cfg (Demo.request Demo.core_db)
           Demo.core_db).
  unfold intake_passes. split; [reflexivity|].
  split; [right; exists (PStr "db"); reflexivity | reflexivity].
Defined.

(** X5. A request without 'contact' whose source is classified: intake
    raises [KeyError('contact')] only after the validation job has been
    submitted, its id recorded and the check queued; no message is sent. *)
Theorem missing_contact_fails_after_submission
  (env : Env) (cfg : config) (spec : dict) (uri : string)
  (groups : list pyval) (id : pyval) :
  intake_passes env spec uri ->
  groups_for_uri cfg uri = Some groups ->
  dict_get "contact" spec = None ->
  hc_submit_job env 0 (hc_args cfg (PStr uri) groups) = Ok id ->
  handover_database env cfg 0 (client spec)
  = let d := dict_set "hc_job_id" id (admitted_spec env cfg spec uri) in
    (Raise (KeyError "contact"),
     {| heap := [d]; queue := [ProcessCheckedDb id d];
        trace := [EvDelay (ProcessCheckedDb id d);
                  EvHcSubmit (hc_args cfg (PStr uri) groups); EvUuid];
        writes := ("hc_job_id", id) :: intake_writes env cfg spec uri |}).
Proof.
  intros Hpass Hg Hc Hsub.
  rewrite (intake_eval env cfg spec uri Hpass), Hg.
  pose proof (admitted_src env cfg spec uri Hpass) as Hs.
  assert (Hc' : dict_get "contact" (admitted_spec env cfg spec uri) = None)
    by (rewrite admitted_other by reflexivity; exact Hc).
  unfold admitted. run_py. rewrite Hs. fold (hc_args cfg (PStr uri) groups).
  change (count is_hc_submit [EvUuid]) with 0. rewrite Hsub.
  repeat (cbv beta iota;
          first [ rewrite dict_get_set_other by reflexivity
                | rewrite Hs | rewrite Hc' ]).
  reflexivity.
Qed.

Lemma missing_contact_fails_after_submission_witness :
  let spec := [("src_uri", PStr Demo.core_db)] in
  fst (handover_database Demo.env Demo.cfg 0 (client spec)) = Raise (KeyError "contact")
  /\ count is_hc_submit
       (trace (snd (handover_database Demo.env Demo.cfg 0 (client spec)))) = 1
  /\ count is_email
       (trace (snd (handover_database Demo.env Demo.cfg 0 (client spec)))) = 0.
Proof.
  intro spec.
  assert (Hg : groups_for_uri Demo.cfg Demo.core_db = Some [PStr "CoreHandover"])
    by (vm_compute; reflexivity).
  assert (Hpass : intake_passes Demo.env spec Demo.core_db).
  { unfold intake_passes. split; [reflexivity|].
    split; [right; exists (PStr "db"); reflexivity | reflexivity]. }
  rewrite (missing_contact_fails_after_submission Demo.env Demo.cfg spec Demo.core_db
             [PStr "CoreHandover"] (PInt 7) Hpass Hg eq_refl eq_refl).
  repeat split; reflexivity.
Defined.

(** X6. A job client that refuses the submission: the exception leaves
    [handover_database] unchanged, whichever stage intake was starting;
    nothing is queued, no job id is recorded and no message is sent. *)
Theorem refused_submission_aborts_intake
  (env : Env) (cfg : config) (spec : dict) (uri : string) (e : ext_exn) :
  intake_passes env spec uri ->
  match groups_for_uri cfg uri with
  | Some groups => hc_submit_job env 0 (hc_args cfg (PStr uri) groups) = Fails e
  | None =>
      copy_submit_job env 0 (copy_args cfg (PStr uri) (target_of env cfg spec uri))
      = Fails e
  end ->
  let (result, w) := handover_database env cfg 0 (client spec) in
  result = Raise (External e)
  /\ queue w = []
  /\ writes w = intake_writes env cfg spec uri
  /\ count is_email (trace w) = 0
  /\ count is_delay (trace w) = 0.
Proof.
  intros Hpass Hsub.
  rewrite (intake_eval env cfg spec uri Hpass).
  pose proof (admitted_src env cfg spec uri Hpass) as Hs.
  pose proof (admitted_tgt env cfg spec uri) as Ht.
  unfold admitted.
  destruct (groups_for_uri cfg uri) as [groups|].
  - run_py. rewrite Hs. fold (hc_args cfg (PStr uri) groups).
    change (count is_hc_submit [EvUuid]) with 0. rewrite Hsub.
    repeat split; reflexivity.
  - run_py. rewrite Hs, Ht.
    fold (copy_args cfg (PStr uri) (target_of env cfg spec uri)).
    change (count is_copy_submit [EvUuid]) with 0. rewrite Hsub.
    repeat split; reflexivity.
Qed.

Lemma refused_submission_aborts_intake_witness :
  let env :=
    {| repr := repr Demo.env; uuid1 := uuid1 Demo.env;
       database_exists := database_exists Demo.env;
       make_url_database := make_url_database Demo.env;
       hc_submit_job := fun _ _ => Fails (SubmissionError "unreachable");
       hc_retrieve_job := hc_retrieve_job Demo.env;
       copy_submit_job := copy_submit_job Demo.env;
       copy_retrieve_job := copy_retrieve_job Demo.env;
       fresh_task_id := fresh_task_id Demo.env |} in
  let (result, w) :=
    handover_database env Demo.cfg 0 (client (Demo.request Demo.core_db)) in
  result = Raise (External (SubmissionError "unreachable"))
  /\ queue w = []
  /\ writes w = intake_writes env Demo.cfg (Demo.request Demo.core_db) Demo.core_db
  /\ count is_email (trace w) = 0
  /\ count is_delay (trace w) = 0.
Proof.
  intro env.
  apply (refused_submission_aborts_intake env Demo.cfg (Demo.request Demo.core_db)
           Demo.core_db (SubmissionError "unreachable")).
  - unfold intake_passes. split; [reflexivity|].
    split; [right; exists (PStr "db"); reflexivity | reflexivity].
  - vm_compute. reflexivity.
Defined.

(** ** The validation check *)

(** X7. When the validation job reports failed (it could not run), the
    execution of [process_checked_db] sends exactly one 'HC failed to run'
    message to the contact, whose body ends with the job's page, submits no
    copy job, queues nothing and ends normally; the nested output is not
    looked at. *)
Theorem validation_failure_notified_once
  (env : Env) (cfg : config) (w : world) (id : pyval) (d : dict) (q : list task)
  (s : string) (c p : pyval) :
  queue w = ProcessCheckedDb id d :: q ->
  dict_get "src_uri" d = Some (PStr s) ->
  dict_get "contact" d = Some c ->
  hc_retrieve_job env (count is_hc_retrieve (trace w)) (hc_uri cfg) id = Ok p ->
  reports p "failed" = true ->
  worker_step env cfg w
  = {| heap := [d]; queue := q;
       trace :=
         EvEmail c "HC failed to run"
           (nl ++ "Running healthchecks vs " ++ s ++ " failed to execute." ++ nl
               ++ "Please see " ++ (hc_web_uri cfg ++ py_str env id) ++ nl)
           (smtp_server cfg)
         :: EvHcRetrieve (hc_uri cfg) id :: trace w;
       writes := writes w |}.
Proof.
  intros Hq Hs Hc Hr Hp.
  rewrite (worker_step_cons env cfg w _ _ Hq).
  destruct w as [h q0 tr wr]; simpl in *.
  pose proof (reports_readable _ _ Hp) as Hv.
  assert (Hrun : in_progress p = false)
    by (apply (finished_not_in_progress _ _ Hp); reflexivity).
  run_py.
  rewrite Hs, Hr, still_running_eval, Hv, Hrun, status_is_eval, Hv, Hp.
  rewrite Hs, Hc. reflexivity.
Qed.

Lemma validation_failure_notified_once_witness :
  let w' :=
    worker_step (Demo.answering (Demo.status "failed")) Demo.cfg
      (Demo.waiting [ProcessCheckedDb (PInt 7) (Demo.staged Demo.core_db)]) in
  queue w' = []
  /\ count (is_email_with "HC failed to run") (trace w') = 1
  /\ count is_copy_submit (trace w') = 0.
Proof.
  intro w'. subst w'.
  rewrite (validation_failure_notified_once
             (Demo.answering (Demo.status "failed")) Demo.cfg
             (Demo.waiting [ProcessCheckedDb (PInt 7) (Demo.staged Demo.core_db)])
             (PInt 7) (Demo.staged Demo.core_db) [] Demo.core_db
             (PStr "dba@example.org") (Demo.status "failed")
             eq_refl eq_refl eq_refl eq_refl eq_refl).
  repeat split; reflexivity.
Defined.

(** ** Polling *)

Lemma worker_retries_awaiting env cfg t h tr wr p :
  awaiting t ->
  nth_reply env cfg t (queries_made t tr) = Ok p ->
  in_progress p = true ->
  worker_step env cfg {| heap := h; queue := [t]; trace := tr; writes := wr |}
  = {| heap := [task_spec t]; queue := [t];
       trace := EvRetry t :: query_event cfg t :: tr; writes := wr |}.
Proof.
  intros Ha Hr Hp.
  rewrite (worker_step_cons env cfg
             {| heap := h; queue := [t]; trace := tr; writes := wr |} t [] eq_refl).
  cbn [heap queue trace writes].
  destruct t as [id d|id d|id d];
    cbn [awaiting nth_reply queries_made task_spec query_event] in *.
  - destruct Ha as [s Hs].
    rewrite (checked_in_progress env cfg id d
               {| heap := h; queue := []; trace := tr; writes := wr |} s p Hs Hr Hp).
    reflexivity.
  - rewrite (copied_in_progress env cfg id d
               {| heap := h; queue := []; trace := tr; writes := wr |} p Hr Hp).
    reflexivity.
  - contradiction.
Qed.

(** X8. There is no ceiling on the reschedules of a polling task: however
    many times in a row the job reports incomplete, running or submitted,
    each execution puts the task back as the only waiting message, without a
    message to the contact and without a failure. *)
Theorem rescheduled_as_long_as_in_progress
  (env : Env) (cfg : config) (t : task) (n : nat) : forall w,
  awaiting t ->
  queue w = [t] ->
  (forall k, k < n ->
     exists p, nth_reply env cfg t (queries_made t (trace w) + k) = Ok p
               /\ in_progress p = true) ->
  let w' := run env cfg n w in
  queue w' = [t]
  /\ count is_retry (trace w') = count is_retry (trace w) + n
  /\ queries_made t (trace w') = queries_made t (trace w) + n
  /\ count is_email (trace w') = count is_email (trace w)
  /\ count is_failure (trace w') = count is_failure (trace w).
Proof.
  induction n as [|n IH]; intros w Ha Hq Hpoll; cbn [run]; cbv zeta.
  - repeat split; auto.
  - destruct w as [h q tr wr]; simpl in Hq; subst q. cbn [trace] in *.
    destruct (Hpoll 0) as (p & Hp & Hip); [lia|].
    rewrite Nat.add_0_r in Hp.
    rewrite (worker_retries_awaiting env cfg t h tr wr p Ha Hp Hip).
    assert (Hmade : queries_made t (EvRetry t :: query_event cfg t :: tr)
                    = S (queries_made t tr)).
    { destruct t; simpl in *; try reflexivity; contradiction. }
    destruct (IH {| heap := [task_spec t]; queue := [t];
                    trace := EvRetry t :: query_event cfg t :: tr; writes := wr |}
                Ha eq_refl) as (H1 & H2 & H3 & H4 & H5).
    { intros k Hk. cbn [trace]. rewrite Hmade.
      replace (S (queries_made t tr) + k) with (queries_made t tr + S k) by lia.
      apply Hpoll. lia. }
    cbn [trace] in *. rewrite Hmade in H3.
    assert (Hq : is_email (query_event cfg t) = false
                 /\ is_failure (query_event cfg t) = false
                 /\ is_retry (query_event cfg t) = false)
      by (destruct t; repeat split; reflexivity).
    destruct Hq as (Q1 & Q2 & Q3).
    unfold count in *. simpl in H2, H4, H5. rewrite Q1 in H4. rewrite Q2 in H5.
    rewrite Q3 in H2. simpl in H2.
    repeat split; try assumption; lia.
Qed.

Lemma rescheduled_as_long_as_in_progress_witness :
  let w' :=
    run (Demo.answering (Demo.status "running")) Demo.cfg 25
      (Demo.waiting [ProcessCopiedDb (PInt 9) (Demo.staged Demo.plain_db)]) in
  queue w' = [ProcessCopiedDb (PInt 9) (Demo.staged Demo.plain_db)]
  /\ count is_retry (trace w') = 25
  /\ count is_email (trace w') = 0.
Proof.
  destruct
    (rescheduled_as_long_as_in_progress
       (Demo.answering (Demo.status "running")) Demo.cfg
       (ProcessCopiedDb (PInt 9) (Demo.staged Demo.plain_db)) 25
       (Demo.waiting [ProcessCopiedDb (PInt 9) (Demo.staged Demo.plain_db)])
       I eq_refl)
    as (H1 & H2 & _ & H4 & _).
  - intros k _. exists (Demo.status "running"). split; reflexivity.
  - repeat split; assumption.
Defined.

(** ** What a run never does *)

Lemma known_messages_step env cfg w :
  forallb known_message (trace w) = true ->
  forallb known_message (trace (worker_step env cfg w)) = true.
Proof.
  destruct w as [h q tr wr]. simpl. intro H.
  destruct q as [|t q]; [exact H|].
  rewrite (worker_step_cons env cfg
             {| heap := h; queue := t :: q; trace := tr; writes := wr |} t q eq_refl).
  destruct t as [id d|id d|id d].
  - run_py. crunch; simpl; assumption.
  - run_py. crunch; simpl; assumption.
  - simpl. assumption.
Qed.

Lemma known_messages_intake env cfg spec :
  forallb known_message (trace (snd (handover_database env cfg 0 (client spec)))) = true.
Proof.
  unfold client. run_py. crunch; reflexivity.
Qed.

(** X9. Whatever the request and whatever the services answer, every
    message a run sends has one of four subjects: 'HC submitted', 'HC failed
    to run', 'HC ran but failed', 'Database copy failed'.  In particular no
    message reports a finished copy or a finished handover. *)
Theorem only_four_kinds_of_message
  (env : Env) (cfg : config) (spec : dict) (n : nat) :
  forall to_address subject body server,
    In (EvEmail to_address subject body server) (trace (pipeline env cfg spec n)) ->
    In subject module_subjects.
Proof.
  assert (H : forallb known_message (trace (pipeline env cfg spec n)) = true).
  { unfold pipeline. generalize (known_messages_intake env cfg spec).
    generalize (snd (handover_database env cfg 0 (client spec))).
    induction n as [|n IH]; intros w Hw; simpl; [exact Hw|].
    apply IH, known_messages_step, Hw. }
  intros a s b sv Hin.
  rewrite forallb_forall in H. specialize (H _ Hin). simpl in H.
  apply orb_true_iff in H as [H | H];
    [left; symmetry; apply String.eqb_eq, H|].
  apply orb_true_iff in H as [H | H];
    [right; left; symmetry; apply String.eqb_eq, H|].
  apply orb_true_iff in H as [H | H];
    [right; right; left; symmetry; apply String.eqb_eq, H|].
  apply orb_true_iff in H as [H | H];
    [right; right; right; left; symmetry; apply String.eqb_eq, H | discriminate].
Qed.

Lemma message_budget_step env cfg w :
  message_budget w -> message_budget (worker_step env cfg w).
Proof.
  destruct w as [h q tr wr]. unfold message_budget, count. simpl.
  intros H.
  destruct q as [|t q]; [exact H|].
  rewrite (worker_step_cons env cfg
             {| heap := h; queue := t :: q; trace := tr; writes := wr |} t q eq_refl).
  destruct t as [id d|id d|id d]; (destruct q; [|contradiction]).
  - run_py. crunch; simpl; lia.
  - run_py. crunch; simpl; lia.
  - simpl. lia.
Qed.

Lemma message_budget_intake env cfg spec :
  message_budget (snd (handover_database env cfg 0 (client spec))).
Proof.
  unfold message_budget, count, client. run_py. crunch; simpl; lia.
Qed.

Lemma only_four_kinds_of_message_witness :
  let sent :=
    EvEmail (PStr "dba@example.org") "HC submitted"
      (Demo.core_db ++ " has been submitted for checking") "smtp.example.org" in
  In sent (trace (pipeline Demo.env Demo.cfg (Demo.request Demo.core_db) 2))
  /\ In "HC submitted" module_subjects.
Proof.
  intros sent.
  assert (Hin : In sent
                  (trace (pipeline Demo.env Demo.cfg (Demo.request Demo.core_db) 2))).
  { vm_compute. do 4 right. left. reflexivity. }
  split; [exact Hin|].
  exact
    (only_four_kinds_of_message Demo.env Demo.cfg (Demo.request Demo.core_db) 2
       (PStr "dba@example.org") "HC submitted"
       (Demo.core_db ++ " has been submitted for checking") "smtp.example.org" Hin).
Defined.

(** X10. A run sends the contact at most two messages, whatever the
    request and whatever the services answer, and at most one as long as a
    task is waiting. *)
Theorem at_most_two_messages
  (env : Env) (cfg : config) (spec : dict) (n : nat) :
  let w := pipeline env cfg spec n in
  count is_email (trace w) <= 2
  /\ (queue w <> [] -> count is_email (trace w) <= 1).
Proof.
  assert (H : message_budget (pipeline env cfg spec n)).
  { unfold pipeline. generalize (message_budget_intake env cfg spec).
    generalize (snd (handover_database env cfg 0 (client spec))).
    induction n as [|n IH]; intros w Hw; simpl; [exact Hw|].
    apply IH, message_budget_step, Hw. }
  cbv zeta. unfold message_budget in H.
  destruct (queue (pipeline env cfg spec n)) as [|t [|t' q]].
  - split; [exact H | congruence].
  - split; [lia | intros _; exact H].
  - contradiction.
Qed.

(** X11. The stages of a run follow one another: at most one task waits at
    any time, and once a copy job has been submitted the validation check is
    never waiting again. *)
Theorem one_stage_at_a_time
  (env : Env) (cfg : config) (spec : dict) (n : nat) :
  let w := pipeline env cfg spec n in
  List.length (queue w) <= 1
  /\ (1 <= count is_copy_submit (trace w) ->
      forallb (fun t => negb (is_checked_task t)) (queue w) = true).
Proof.
  cbv zeta. unfold pipeline.
  pose proof (stage_invariant_run env cfg n _ (stage_invariant_intake env cfg spec))
    as (_ & _ & _ & _ & Hq).
  destruct (queue (run env cfg n (snd (handover_database env cfg 0 (client spec)))))
    as [|t [|t' q]].
  - split; [simpl; lia | reflexivity].
  - split; [simpl; lia|]. destruct t; simpl; intros H; try reflexivity. lia.
  - destruct t; contradiction.
Qed.

(** ** Which identifiers are classified *)

Module NameFacts.
Import Re.

Lemma chars_app s t :
  list_ascii_of_string (s ++ t)
  = (list_ascii_of_string s ++ list_ascii_of_string t)%list.
Proof.
  induction s as [|c s IH]; simpl; [reflexivity|]. rewrite IH. reflexivity.
Qed.

Lemma seq_inv r1 r2 u :
  lang (Seq r1 r2) u ->
  exists u1 u2, u = (u1 ++ u2)%list /\ lang r1 u1 /\ lang r2 u2.
Proof. intro H. inversion H; subst. eauto. Qed.

Lemma alt_inv r1 r2 u : lang (Alt r1 r2) u -> lang r1 u \/ lang r2 u.
Proof. intro H. inversion H; subst; auto. Qed.

Lemma lit_inv c u : lang (Lit c) u -> u = [c].
Proof. intro H. inversion H; subst. reflexivity. Qed.

Lemma range_inv lo hi u :
  lang (Range lo hi) u -> exists c, u = [c] /\ in_range lo hi c = true.
Proof. intro H. inversion H; subst. eauto. Qed.

Lemma star_dot_sound u : lang (Star Dot) u -> forallb not_newline u = true.
Proof.
  intro H. remember (Star Dot) as r eqn:E. revert E.
  induction H; intro E; try discriminate; [reflexivity|].
  inversion E; subst.
  match goal with H : lang Dot _ |- _ => inversion H; subst end.
  simpl. unfold not_newline at 1.
  match goal with H : is_newline _ = false |- _ => rewrite H end.
  simpl. apply IHlang2. reflexivity.
Qed.

Lemma star_dot_complete u : forallb not_newline u = true -> lang (Star Dot) u.
Proof.
  induction u as [|c u IH]; simpl; intro H; [constructor|].
  apply andb_true_iff in H as [Hc Hu].
  change (c :: u) with ([c] ++ u)%list. constructor; [|auto].
  constructor. unfold not_newline in Hc. apply negb_true_iff, Hc.
Qed.

Lemma word_lang k : forall w, lang (word k) w <-> w = list_ascii_of_string k.
Proof.
  induction k as [|c k IH]; intro w; simpl.
  - split; intro H; [inversion H; reflexivity | subst; constructor].
  - split.
    + intro H. apply seq_inv in H as (u1 & u2 & -> & H1 & H2).
      apply lit_inv in H1. apply IH in H2. subst. reflexivity.
    + intros ->. change (c :: list_ascii_of_string k)
        with ([c] ++ list_ascii_of_string k)%list.
      constructor; [constructor | apply IH; reflexivity].
Qed.

(** What [db_pattern] matches at the start of a subject. *)
Lemma db_pattern_match keyword s :
  match_prefix (db_pattern keyword) s = true
  <-> exists before letter w number rest,
        s = (before ++ letter :: "_"%char :: w ++ "_"%char :: number :: rest)%list
        /\ forallb not_newline before = true
        /\ lower_case letter = true
        /\ lang keyword w
        /\ digit number = true.
Proof.
  rewrite ReFacts.match_prefix_correct. unfold db_pattern. split.
  - intros (u & v & -> & H).
    apply seq_inv in H as (u1 & x & -> & H1 & H).
    apply seq_inv in H as (u2 & x' & -> & H2 & H).
    apply seq_inv in H as (u3 & x & -> & H3 & H).
    apply seq_inv in H as (u4 & x' & -> & H4 & H).
    apply seq_inv in H as (u5 & x & -> & H5 & H).
    apply seq_inv in H as (u6 & u7 & -> & H6 & H7).
    apply range_inv in H2 as (c & -> & Hc).
    apply lit_inv in H3. apply lit_inv in H5. subst.
    apply range_inv in H6 as (dg & -> & Hdg).
    exists u1, c, u4, dg, (u7 ++ v)%list.
    repeat split; auto using star_dot_sound.
    repeat (rewrite <- app_assoc; simpl). reflexivity.
  - intros (before & c & w & dg & rest & -> & Hb & Hc & Hw & Hdg).
    exists (before ++ [c] ++ ["_"%char] ++ w ++ ["_"%char] ++ [dg] ++ [])%list, rest.
    split.
    + repeat (rewrite <- app_assoc; simpl). reflexivity.
    + repeat constructor; auto using star_dot_complete.
Qed.

Lemma pattern_names keyword s :
  re_match (db_pattern (word keyword)) s = true
  <-> names_database keyword (list_ascii_of_string s).
Proof.
  unfold re_match, names_database. rewrite db_pattern_match. split.
  - intros (b & c & w & dg & r & E & Hb & Hc & Hw & Hdg).
    apply word_lang in Hw. subst w. exists b, c, dg, r. auto.
  - intros (b & c & dg & r & E & Hb & Hc & Hdg).
    exists b, c, (list_ascii_of_string keyword), dg, r.
    repeat split; auto. apply word_lang. reflexivity.
Qed.

Lemma core_pattern_names s :
  re_match core_pattern s = true
  <-> names_database "core" (list_ascii_of_string s)
      \/ names_database "rnaseq" (list_ascii_of_string s)
      \/ names_database "cdna" (list_ascii_of_string s)
      \/ names_database "otherfeatures" (list_ascii_of_string s).
Proof.
  unfold core_pattern, re_match, names_database. rewrite db_pattern_match. split.
  - intros (b & c & w & dg & r & E & Hb & Hc & Hw & Hdg).
    apply alt_inv in Hw as [Hk | Hw]; [|apply alt_inv in Hw as [Hk | Hw]];
      [| |apply alt_inv in Hw as [Hk | Hk]];
      apply word_lang in Hk; subst w;
      [left | right; left | right; right; left | right; right; right];
      exists b, c, dg, r; auto.
  - intros [H | [H | [H | H]]];
      destruct H as (b & c & dg & r & E & Hb & Hc & Hdg);
      eexists b, c, _, dg, r; (repeat split; [exact E | auto | auto | | auto]).
    + apply L_alt_l, word_lang. reflexivity.
    + apply L_alt_r, L_alt_l, word_lang. reflexivity.
    + apply L_alt_r, L_alt_r, L_alt_l, word_lang. reflexivity.
    + apply L_alt_r, L_alt_r, L_alt_r, word_lang. reflexivity.
Qed.

Lemma re_match_app p s t : re_match p s = true -> re_match p (s ++ t) = true.
Proof.
  unfold re_match. rewrite !ReFacts.match_prefix_correct, chars_app.
  intros (u & v & E & H). exists u, (v ++ list_ascii_of_string t)%list.
  rewrite E, app_assoc. auto.
Qed.

End NameFacts.

(** X12. An identifier needs validation exactly when its first line holds,
    somewhere, a lower-case letter, an underscore, one of the keywords core,
    rnaseq, cdna, otherfeatures, variation, funcgen, compara, an underscore
    and a digit; what comes after is not looked at, and a name that only
    appears after a line break does not count. *)
Theorem classified_iff_names_database (cfg : config) (uri : string) :
  groups_for_uri cfg uri <> None
  <-> exists keyword,
        In keyword keywords /\ names_database keyword (list_ascii_of_string uri).
Proof.
  unfold groups_for_uri, variation_pattern, funcgen_pattern, compara_pattern.
  split.
  - destruct (re_match core_pattern uri) eqn:E1.
    { intros _. apply NameFacts.core_pattern_names in E1.
      destruct E1 as [H | [H | [H | H]]]; eexists; (split; [|exact H]);
        simpl; auto 8. }
    destruct (re_match (db_pattern (Re.word "variation")) uri) eqn:E2.
    { intros _. apply NameFacts.pattern_names in E2.
      eexists; (split; [|exact E2]); simpl; auto 8. }
    destruct (re_match (db_pattern (Re.word "funcgen")) uri) eqn:E3.
    { intros _. apply NameFacts.pattern_names in E3.
      eexists; (split; [|exact E3]); simpl; auto 8. }
    destruct (re_match (db_pattern (Re.word "compara")) uri) eqn:E4.
    { intros _. apply NameFacts.pattern_names in E4.
      eexists; (split; [|exact E4]); simpl; auto 10. }
    intro H. contradiction H. reflexivity.
  - intros (k & Hin & H).
    assert (Hm : re_match core_pattern uri = true
                 \/ re_match (db_pattern (Re.word "variation")) uri = true
                 \/ re_match (db_pattern (Re.word "funcgen")) uri = true
                 \/ re_match (db_pattern (Re.word "compara")) uri = true).
    { simpl in Hin.
      destruct Hin as [<- | [<- | [<- | [<- | [<- | [<- | [<- | []]]]]]]].
      - left. apply NameFacts.core_pattern_names. auto.
      - left. apply NameFacts.core_pattern_names. auto.
      - left. apply NameFacts.core_pattern_names. auto.
      - left. apply NameFacts.core_pattern_names. auto.
      - right; left. apply NameFacts.pattern_names, H.
      - right; right; left. apply NameFacts.pattern_names, H.
      - right; right; right. apply NameFacts.pattern_names, H. }
    destruct (re_match core_pattern uri); [discriminate|].
    destruct (re_match (db_pattern (Re.word "variation")) uri); [discriminate|].
    destruct (re_match (db_pattern (Re.word "funcgen")) uri); [discriminate|].
    destruct (re_match (db_pattern (Re.word "compara")) uri); [discriminate|].
    destruct Hm as [Hm | [Hm | [Hm | Hm]]]; discriminate.
Qed.

(** X13. An identifier that needs validation still needs it when any text
    is appended to it; one that names a core-like database keeps the core
    group. *)
Theorem appended_text_keeps_classification (cfg : config) (uri more : string) :
  groups_for_uri cfg uri <> None ->
  groups_for_uri cfg (uri ++ more) <> None
  /\ (groups_for_uri cfg uri = Some [PStr (core_handover_group cfg)] ->
      re_match core_pattern uri = true ->
      groups_for_uri cfg (uri ++ more) = Some [PStr (core_handover_group cfg)]).
Proof.
  intro H. split.
  - revert H. unfold groups_for_uri.
    destruct (re_match core_pattern uri) eqn:E1;
      [rewrite (NameFacts.re_match_app _ _ more E1); discriminate|].
    destruct (re_match core_pattern (uri ++ more)); [discriminate|].
    destruct (re_match variation_pattern uri) eqn:E2;
      [rewrite (NameFacts.re_match_app _ _ more E2); discriminate|].
    destruct (re_match variation_pattern (uri ++ more)); [discriminate|].
    destruct (re_match funcgen_pattern uri) eqn:E3;
      [rewrite (NameFacts.re_match_app _ _ more E3); discriminate|].
    destruct (re_match funcgen_pattern (uri ++ more)); [discriminate|].
    destruct (re_match compara_pattern uri) eqn:E4;
      [rewrite (NameFacts.re_match_app _ _ more E4); discriminate|].
    intro H. contradiction H. reflexivity.
  - intros _ E. unfold groups_for_uri.
    rewrite (NameFacts.re_match_app _ _ more E). reflexivity.
Qed.

Lemma appended_text_keeps_classification_witness :
  groups_for_uri Demo.cfg (Demo.core_db ++ "?ssl=true") <> None.
Proof.
  apply (appended_text_keeps_classification Demo.cfg Demo.core_db "?ssl=true").
  vm_compute. discriminate.
Defined.

(** * The e-mail task *)

Module EmailFacts.
Import EmailTasks.

Section Task.

Variable http_get : nat -> string -> reply response.
Variable cf : conf.

(** X14. A response that cannot be decoded: the task makes its one request
    and then neither retries nor sends a message, and its message is not
    queued again.  When the decoder raises [json.JSONDecodeError] the task is
    rejected without requeueing; when it raises an error of another class
    nothing catches it, and the task fails with that error instead of being
    rejected. *)
Theorem undecodable_response_never_mailed
  (url : string) (address : pyval) (rest : list message) (done : list effect)
  (resp : response) :
  http_get (tally is_get done) url = Ok resp ->
  json resp = None ->
  email_when_complete http_get cf (EmailWhenComplete url address) url address
    {| pending := rest; effects := done |}
  = (match json_error resp with
     | JSONDecodeError => Rejects false
     | OtherDecodeError msg => Raises (ValueError msg)
     end,
     {| pending := rest; effects := Get url :: done |})
  /\ work http_get cf
       {| pending := EmailWhenComplete url address :: rest; effects := done |}
     = {| pending := rest;
          effects :=
            match json_error resp with
            | JSONDecodeError =>
                Rejected (EmailWhenComplete url address) :: Get url :: done
            | OtherDecodeError _ => Get url :: done
            end |}.
Proof.
  intros Hget Hjson. unfold work, email_when_complete. simpl.
  rewrite Hget, Hjson. destruct (json_error resp); split; reflexivity.
Qed.

(** X15. A decoded result whose status is none of incomplete, running and
    submitted and that has a subject and a body: exactly one message goes to
    the address, with that subject and body, from the configured sender
    through the configured server; the task returns the result and is not
    queued again. *)
Theorem finished_job_mailed_once
  (url : string) (address : pyval) (rest : list message) (done : list effect)
  (resp : response) (result status subject body : pyval) :
  http_get (tally is_get done) url = Ok resp ->
  json resp = Some result ->
  py_index result "status" = Return status ->
  in_progress result = false ->
  py_index result "subject" = Return subject ->
  py_index result "body" = Return body ->
  email_when_complete http_get cf (EmailWhenComplete url address) url address
    {| pending := rest; effects := done |}
  = (Returns result,
     {| pending := rest;
        effects := Sent (conf_smtp_server cf) (conf_from_email_address cf)
                     address subject body
                   :: Get url :: done |}).
Proof.
  intros Hget Hjson Hst Hrun Hsub Hbody. unfold email_when_complete. simpl.
  rewrite Hget, Hjson, Hst, Hrun, Hsub, Hbody. reflexivity.
Qed.

(** While the job is in progress the task goes back to the queue, to run
    after [retry_wait]. *)
Lemma in_progress_retried url address done resp result :
  http_get (tally is_get done) url = Ok resp ->
  json resp = Some result ->
  in_progress result = true ->
  work http_get cf {| pending := [EmailWhenComplete url address]; effects := done |}
  = {| pending := [EmailWhenComplete url address];
       effects := RetryIn (retry_wait cf) (EmailWhenComplete url address)
                  :: Get url :: done |}.
Proof.
  intros Hget Hjson Hrun. unfold work, email_when_complete. simpl.
  rewrite Hget, Hjson.
  destruct (in_progress_readable _ Hrun) as [v Hv]. rewrite Hv, Hrun.
  reflexivity.
Qed.

(** X16. A job that is reported in progress [n] times and then finished:
    the task is retried [n] times, each time after [retry_wait], and then
    sends its one message; nothing is left waiting. *)
Theorem mailed_once_after_retries
  (url : string) (address : pyval) (n : nat) (result subject body : pyval) :
  (forall k, k < n ->
     exists resp r, http_get k url = Ok resp /\ json resp = Some r
                    /\ in_progress r = true) ->
  (exists resp, http_get n url = Ok resp /\ json resp = Some result) ->
  in_progress result = false ->
  (exists status, py_index result "status" = Return status) ->
  py_index result "subject" = Return subject ->
  py_index result "body" = Return body ->
  let s := works http_get cf (S n)
             {| pending := [EmailWhenComplete url address]; effects := [] |} in
  pending s = []
  /\ tally is_retry_in (effects s) = n
  /\ tally is_get (effects s) = S n
  /\ tally is_rejected (effects s) = 0
  /\ filter is_sent (effects s)
     = [Sent (conf_smtp_server cf) (conf_from_email_address cf) address subject body]
  /\ (forall c m, In (RetryIn c m) (effects s) -> c = retry_wait cf).
Proof.
  intros Hpoll (resp & Hget & Hjson) Hrun (status & Hst) Hsub Hbody.
  assert (Hgen : forall j k done,
            k + j = n ->
            tally is_get done = k ->
            tally is_retry_in done = k ->
            tally is_rejected done = 0 ->
            filter is_sent done = [] ->
            (forall c m, In (RetryIn c m) done -> c = retry_wait cf) ->
            let s := works http_get cf (S j)
                       {| pending := [EmailWhenComplete url address];
                          effects := done |} in
            pending s = []
            /\ tally is_retry_in (effects s) = n
            /\ tally is_get (effects s) = S n
            /\ tally is_rejected (effects s) = 0
            /\ filter is_sent (effects s)
               = [Sent (conf_smtp_server cf) (conf_from_email_address cf)
                    address subject body]
            /\ (forall c m, In (RetryIn c m) (effects s) -> c = retry_wait cf)).
  { induction j as [|j IH]; intros k done E Hg Hr Hrej Hs Hc.
    - assert (Ek : k = n) by lia. rewrite Ek in Hg, Hr. clear Ek E. cbn [works]. cbv zeta.
      unfold work. cbn [pending effects].
      rewrite <- Hg in Hget.
      rewrite (finished_job_mailed_once url address [] done resp result status
                 subject body Hget Hjson Hst Hrun Hsub Hbody).
      unfold tally in *. simpl. rewrite Hs.
      repeat split; auto.
      intros c m [Hin | [Hin | Hin]]; try discriminate. eauto.
    - destruct (Hpoll k) as (r0 & r & Hg0 & Hj0 & Hr0); [lia|].
      rewrite <- Hg in Hg0.
      change (works http_get cf (S (S j)) ?s)
        with (works http_get cf (S j) (work http_get cf s)).
      rewrite (in_progress_retried url address done r0 r Hg0 Hj0 Hr0).
      apply (IH (S k)); try lia.
      + unfold tally in *. simpl. lia.
      + unfold tally in *. simpl. lia.
      + unfold tally in *. simpl. exact Hrej.
      + simpl. exact Hs.
      + intros c m [Hin | [Hin | Hin]]; try discriminate; [|eauto].
        inversion Hin. reflexivity. }
  apply (Hgen n 0 []); auto; try reflexivity.
  intros c m [].
Qed.

End Task.

Lemma undecodable_response_never_mailed_witness :
  let m := EmailWhenComplete "http://copy/jobs/9" (PStr "dba@example.org") in
  work (fun _ _ => Ok (page None)) demo_conf {| pending := [m]; effects := [] |}
  = {| pending := []; effects := [Rejected m; Get "http://copy/jobs/9"] |}
  /\ email_when_complete (fun _ _ => Ok simplejson_page) demo_conf m
       "http://copy/jobs/9" (PStr "dba@example.org")
       {| pending := []; effects := [] |}
     = (Raises (ValueError "Expecting value: line 1 column 1 (char 0)"),
        {| pending := []; effects := [Get "http://copy/jobs/9"] |})
  /\ work (fun _ _ => Ok simplejson_page) demo_conf
       {| pending := [m]; effects := [] |}
     = {| pending := []; effects := [Get "http://copy/jobs/9"] |}.
Proof.
  intro m. split; [|split].
  - exact
      (proj2
         (undecodable_response_never_mailed (fun _ _ => Ok (page None)) demo_conf
            "http://copy/jobs/9" (PStr "dba@example.org") [] [] (page None)
            eq_refl eq_refl)).
  - exact
      (proj1
         (undecodable_response_never_mailed (fun _ _ => Ok simplejson_page)
            demo_conf "http://copy/jobs/9" (PStr "dba@example.org") [] []
            simplejson_page eq_refl eq_refl)).
  - exact
      (proj2
         (undecodable_response_never_mailed (fun _ _ => Ok simplejson_page)
            demo_conf "http://copy/jobs/9" (PStr "dba@example.org") [] []
            simplejson_page eq_refl eq_refl)).
Defined.

Lemma finished_job_mailed_once_witness :
  email_when_complete (fun _ _ => Ok (page (Some (report "complete")))) demo_conf
    (EmailWhenComplete "http://copy/jobs/9" (PStr "dba@example.org"))
    "http://copy/jobs/9" (PStr "dba@example.org")
    {| pending := []; effects := [] |}
  = (Returns (report "complete"),
     {| pending := [];
        effects := [Sent (PStr "smtp.example.org") (PStr "prodinf@example.org")
                      (PStr "dba@example.org") (PStr "Copy done")
                      (PStr "All tables copied");
                    Get "http://copy/jobs/9"] |}).
Proof.
  exact
    (finished_job_mailed_once (fun _ _ => Ok (page (Some (report "complete"))))
       demo_conf "http://copy/jobs/9" (PStr "dba@example.org") [] []
       (page (Some (report "complete"))) (report "complete") (PStr "complete")
       (PStr "Copy done") (PStr "All tables copied")
       eq_refl eq_refl eq_refl eq_refl eq_refl eq_refl).
Defined.

Lemma mailed_once_after_retries_witness :
  let http := fun k (_ : string) =>
                match k with
                | 0 | 1 => Ok (page (Some (report "running")))
                | _ => Ok (page (Some (report "complete")))
                end in
  let s := works http demo_conf 3
             {| pending := [EmailWhenComplete "http://copy/jobs/9"
                              (PStr "dba@example.org")];
                effects := [] |} in
  pending s = []
  /\ tally is_retry_in (effects s) = 2
  /\ tally is_sent (effects s) = 1.
Proof.
  intros http s.
  destruct
    (mailed_once_after_retries http demo_conf "http://copy/jobs/9"
       (PStr "dba@example.org") 2 (report "complete") (PStr "Copy done")
       (PStr "All tables copied"))
    as (H1 & H2 & _ & _ & H5 & _).
  - intros k Hk. exists (page (Some (report "running"))), (report "running").
    destruct k as [|[|k]]; [repeat split; reflexivity .. | lia].
  - exists (page (Some (report "complete"))). split; reflexivity.
  - reflexivity.
  - exists (PStr "complete"). reflexivity.
  - reflexivity.
  - reflexivity.
  - subst s. split; [exact H1|]. split; [exact H2|].
    unfold tally. rewrite H5. reflexivity.
Defined.

End EmailFacts.
